(** * Quantum honeypot simulation: the cell, the timeline buffer and the
      window's handlers, embedded from [quantum_honeypot.py].

    The Python program keeps all of its state in three objects: a
    [QuantumHoneypotModel] (the cell), a [TimelineCanvas] (two bounded deques
    and a list of intrusion markers) and the [MainWindow] that owns both,
    two [QTimer]s, a spin box, a log and a label.  Every method is embedded
    as a function on records; the two sources of nondeterminism, [random]
    and [time.time()], are read from an explicit [World]. *)

From Stdlib Require Import ZArith List String Ascii Bool Lia Arith DecimalString Sorted.
Import ListNotations.

Local Open Scope string_scope.
Local Open Scope Z_scope.
Local Open Scope list_scope.

(** ** The environment: random draws and clock readings *)

(** [entropy k] is the raw number behind the [k]-th call of
    [random.choice]; [drawn] counts the calls made so far.  [clock k] is the
    value of [round(time.time() - start_time, 2)] at the [k]-th reading, in
    hundredths of a second; [reads] counts the readings made so far. *)
Record World := mkWorld {
  entropy : nat -> nat;
  drawn : nat;
  clock : nat -> Z;
  reads : nat
}.

(** [random.choice(seq)]: one draw, reduced modulo the length of [seq].  The
    two sequences the program draws from are non-empty constants, so the
    default [d] is never returned. *)
Definition random_choice {A : Type} (d : A) (seq : list A) (w : World) : A * World :=
  (nth (Nat.modulo (entropy w (drawn w)) (List.length seq)) seq d,
   mkWorld (entropy w) (S (drawn w)) (clock w) (reads w)).

(** [time.time() - start_time], rounded to two decimals. *)
Definition read_clock (w : World) : Z * World :=
  (clock w (reads w), mkWorld (entropy w) (drawn w) (clock w) (S (reads w))).

(** ** Simulation parameters *)

Definition QSTATES : list string := ["|0⟩"; "|1⟩"; "|+⟩"; "|-⟩"].
Definition MEASURE_OUTCOMES : list string := ["0"; "1"].

(** ** Python values and exceptions used by the handlers *)

Inductive exn := ValueError | TypeError | OverflowError.

(** The numbers stored on the timeline: [0], [1] or [np.nan]. *)
Inductive num := NaN | Int (z : Z).

Definition digit_of (c : ascii) : option Z :=
  let n := Z.of_nat (nat_of_ascii c) in
  if (48 <=? n) && (n <=? 57) then Some (n - 48) else None.

Fixpoint digits (acc : Z) (s : string) : option Z :=
  match s with
  | EmptyString => Some acc
  | String c s' =>
      match digit_of c with
      | Some d => digits (10 * acc + d) s'
      | None => None
      end
  end.

(** [int(x)] on the values the program passes to it: [None] raises
    [TypeError]; a string of decimal digits is parsed; any other string is
    taken to raise [ValueError] (signs, blanks and underscores, which Python
    also accepts, never occur in [MEASURE_OUTCOMES]). *)
Definition py_int (x : option string) : exn + Z :=
  match x with
  | None => inl TypeError
  | Some EmptyString => inl ValueError
  | Some s =>
      match digits 0 s with
      | Some z => inr z
      | None => inl ValueError
      end
  end.

(** [f"{x}"] for an optional string. *)
Definition fmt (x : option string) : string :=
  match x with
  | Some s => s
  | None => "None"
  end.

(** ** QuantumHoneypotModel *)

Module Cell.

Record QuantumHoneypotModel := mkModel {
  quantum_state : string;
  collapsed : bool;
  collapsed_value : option string;
  time : Z
}.

(** [reset]: a new random label; the three other fields are overwritten. *)
Definition reset (w : World) (self : QuantumHoneypotModel)
  : QuantumHoneypotModel * World :=
  let (q, w') := random_choice "" QSTATES w in
  (mkModel q false None 0, w').

(** [__init__] only calls [reset]. *)
Definition init (w : World) : QuantumHoneypotModel * World :=
  reset w (mkModel "" false None 0).

(** [measure]: draws only when [collapsed] is false. *)
Definition measure (w : World) (self : QuantumHoneypotModel)
  : option string * QuantumHoneypotModel * World :=
  if negb (collapsed self) then
    let (v, w') := random_choice "" MEASURE_OUTCOMES w in
    let self' := mkModel (quantum_state self) true (Some v) (time self) in
    (collapsed_value self', self', w')
  else
    (collapsed_value self, self, w).

(** [intrusion_attempt]: returns [(measured_now, outcome)]. *)
Definition intrusion_attempt (w : World) (self : QuantumHoneypotModel)
  : (bool * option string) * QuantumHoneypotModel * World :=
  if negb (collapsed self) then
    let '(outcome, self', w') := measure w self in
    ((true, outcome), self', w')
  else
    ((false, collapsed_value self), self, w).

(** The two collapse-inducing calls, and the calls a client can make on
    one cell. *)
Inductive probe := Measure | Intrusion.
Inductive call := Probe (p : probe) | Reset.

(** One collapse-inducing call, with the outcome its caller gets back. *)
Definition probe_step (p : probe) (st : QuantumHoneypotModel * World)
  : option string * (QuantumHoneypotModel * World) :=
  let (self, w) := st in
  match p with
  | Measure =>
      let '(v, self', w') := measure w self in (v, (self', w'))
  | Intrusion =>
      let '((_, v), self', w') := intrusion_attempt w self in (v, (self', w'))
  end.

Fixpoint probes (ps : list probe) (st : QuantumHoneypotModel * World)
  : list (option string) * (QuantumHoneypotModel * World) :=
  match ps with
  | [] => ([], st)
  | p :: ps' =>
      let (v, st1) := probe_step p st in
      let (vs, st2) := probes ps' st1 in
      (v :: vs, st2)
  end.

Definition step (c : call) (st : QuantumHoneypotModel * World)
  : QuantumHoneypotModel * World :=
  match c with
  | Probe p => snd (probe_step p st)
  | Reset => reset (snd st) (fst st)
  end.

(** The state after a sequence of calls, oldest call first. *)
Definition run (cs : list call) (st : QuantumHoneypotModel * World)
  : QuantumHoneypotModel * World :=
  fold_left (fun st c => step c st) cs st.

(** The data-model invariant of section 3 of the specification. *)
Definition consistent (self : QuantumHoneypotModel) : Prop :=
  collapsed_value self <> None <-> collapsed self = true.

End Cell.

(** ** collections.deque with a maximum length *)

Module Deque.

(** [maxlen] is [-1] for an unbounded deque, as in CPython. *)
Record deque (A : Type) := mkDeque {
  maxlen : Z;
  items : list A
}.
Arguments mkDeque {A}.
Arguments maxlen {A}.
Arguments items {A}.

(** [deque(maxlen=n)] for an integer [n] that fits a C [ssize_t]: a
    negative [n] raises [ValueError].  (Beyond [ssize_t] CPython refuses
    the integer itself; the program only ever passes 200 or 400.) *)
Definition new {A : Type} (n : Z) : exn + deque A :=
  if n <? 0 then inl ValueError else inr (mkDeque n []).

(** [d.append(x)]: the item goes to the right end, then the left end is
    dropped when the length has passed [maxlen]. *)
Definition append {A : Type} (x : A) (d : deque A) : deque A :=
  let l := items d ++ [x] in
  if (0 <=? maxlen d) && (maxlen d <? Z.of_nat (List.length l))
  then mkDeque (maxlen d) (tl l)
  else mkDeque (maxlen d) l.

(** [append] for each item of [xs], first item first. *)
Definition appends {A : Type} (xs : list A) (d : deque A) : deque A :=
  fold_left (fun d x => append x d) xs d.

(** What every deque built by [new] and [append] satisfies. *)
Definition ok {A : Type} (d : deque A) : Prop :=
  0 <= maxlen d /\ Z.of_nat (List.length (items d)) <= maxlen d.

End Deque.

(** ** TimelineCanvas *)

Module Canvas.

(** The data of the canvas.  The matplotlib axes are left out: [clear] and
    [_redraw] only read [times], [values] and [intrusion_times] to draw. *)
Record TimelineCanvas := mkCanvas {
  max_points : Z;
  times : Deque.deque Z;
  values : Deque.deque num;
  intrusion_times : list (Z * num)
}.

Definition _redraw (self : TimelineCanvas) : TimelineCanvas := self.

(** A canvas of [n] places that holds nothing. *)
Definition empty (n : Z) : TimelineCanvas :=
  mkCanvas n (Deque.mkDeque n []) (Deque.mkDeque n []) [].

(** [clear]: two new deques of [max_points] places and an empty marker
    list.  The first [deque(...)] raises before anything is assigned. *)
Definition clear (self : TimelineCanvas) : exn + TimelineCanvas :=
  match Deque.new (max_points self), Deque.new (max_points self) with
  | inr ts, inr vs => inr (mkCanvas (max_points self) ts vs [])
  | inl e, _ => inl e
  | _, inl e => inl e
  end.

(** [__init__(max_points)]. *)
Definition init (max_points : Z) : exn + TimelineCanvas :=
  clear (empty max_points).

Definition append (t : Z) (value : num) (self : TimelineCanvas) : TimelineCanvas :=
  _redraw (mkCanvas (max_points self)
                    (Deque.append t (times self))
                    (Deque.append value (values self))
                    (intrusion_times self)).

Definition mark_intrusion (t : Z) (value_at_t : num) (self : TimelineCanvas)
  : TimelineCanvas :=
  _redraw (mkCanvas (max_points self) (times self) (values self)
                    (intrusion_times self ++ [(t, value_at_t)])).

(** The samples held by the canvas, oldest first. *)
Definition samples (self : TimelineCanvas) : list (Z * num) :=
  combine (Deque.items (times self)) (Deque.items (values self)).

Definition append_all (xs : list (Z * num)) (self : TimelineCanvas) : TimelineCanvas :=
  fold_left (fun c x => append (fst x) (snd x) c) xs self.

(** The two mutators other than [clear], as data. *)
Inductive op := Append (t : Z) (value : num) | Mark (t : Z) (value_at_t : num).

Definition apply (o : op) (self : TimelineCanvas) : TimelineCanvas :=
  match o with
  | Append t v => append t v self
  | Mark t v => mark_intrusion t v self
  end.

Definition apply_all (os : list op) (self : TimelineCanvas) : TimelineCanvas :=
  fold_left (fun c o => apply o c) os self.

(** The markers requested by a sequence of operations, in order. *)
Fixpoint marks (os : list op) : list (Z * num) :=
  match os with
  | [] => []
  | Append _ _ :: os' => marks os'
  | Mark t v :: os' => (t, v) :: marks os'
  end.

Definition ok (self : TimelineCanvas) : Prop :=
  Deque.ok (times self) /\ Deque.ok (values self)
  /\ Deque.maxlen (times self) = max_points self
  /\ Deque.maxlen (values self) = max_points self
  /\ List.length (Deque.items (times self)) = List.length (Deque.items (values self)).

End Canvas.

(** ** The Qt widgets the window uses *)

Module Qt.

Inductive CheckState := Unchecked | PartiallyChecked | Checked.

(** The integer behind a member of [Qt.CheckState]. *)
Definition int_of (c : CheckState) : Z :=
  match c with Unchecked => 0 | PartiallyChecked => 1 | Checked => 2 end.

(** The Python objects a slot of the check box can be handed: an [int], as
    the signal [stateChanged(int)] delivers it, or a member of the
    enumeration. *)
Inductive pyobj := PyInt (n : Z) | PyMember (c : CheckState).

(** [a == b]: two ints are compared by value and two members by identity;
    [Qt.CheckState] is a plain [Enum], so an int never equals a member. *)
Definition py_eq (a b : pyobj) : bool :=
  match a, b with
  | PyInt n, PyInt m => n =? m
  | PyMember Unchecked, PyMember Unchecked => true
  | PyMember PartiallyChecked, PyMember PartiallyChecked => true
  | PyMember Checked, PyMember Checked => true
  | _, _ => false
  end.

(** A [QTimer].  [starts] counts how often the timer was (re)started, so
    that a restart is visible in the state. *)
Record QTimer := mkTimer {
  interval : Z;
  active : bool;
  starts : nat
}.

Definition QTimer_new : QTimer := mkTimer 0 false 0%nat.

(** [setInterval(msec)]: a running timer is restarted with the new period. *)
Definition setInterval (msec : Z) (t : QTimer) : QTimer :=
  mkTimer msec (active t) (if active t then S (starts t) else starts t).

(** [start()]: starts, or stops and restarts, the timer. *)
Definition start (t : QTimer) : QTimer :=
  mkTimer (interval t) true (S (starts t)).

(** [start(msec)]: sets the period, then starts. *)
Definition start_with (msec : Z) (t : QTimer) : QTimer :=
  mkTimer msec true (S (starts t)).

Definition stop (t : QTimer) : QTimer :=
  mkTimer (interval t) false (starts t).

(** A [QSpinBox]: the value always lies between [minimum] and [maximum]. *)
Record QSpinBox := mkSpin {
  minimum : Z;
  maximum : Z;
  value : Z
}.

Definition QSpinBox_new : QSpinBox := mkSpin 0 99 0.

Definition bound (lo hi v : Z) : Z := Z.max lo (Z.min hi v).

(** [setRange(lo, hi)]: the current value is brought into the new range. *)
Definition setRange (lo hi : Z) (s : QSpinBox) : QSpinBox :=
  let hi' := Z.max lo hi in
  mkSpin lo hi' (bound lo hi' (value s)).

(** Whether [v] fits the C [int] that [setValue] takes. *)
Definition c_int (v : Z) : bool := (- 2 ^ 31 <=? v) && (v <? 2 ^ 31).

(** [setValue(v)] called from Python: an integer that does not fit a C
    [int] raises [OverflowError] and leaves the box as it was; any other
    value outside the range is adjusted to the nearest bound, and nothing
    is reported to the caller. *)
Definition setValue (v : Z) (s : QSpinBox) : exn + QSpinBox :=
  if c_int v
  then inr (mkSpin (minimum s) (maximum s) (bound (minimum s) (maximum s) v))
  else inl OverflowError.

(** The box after the user has edited it towards [v] with the keyboard or
    the arrows: the editor never lets the value leave the range. *)
Definition edited (v : Z) (s : QSpinBox) : QSpinBox :=
  mkSpin (minimum s) (maximum s) (bound (minimum s) (maximum s) v).

End Qt.

(** ** MainWindow *)

Module Window.

Import Cell Canvas Qt.

Record MainWindow := mkWindow {
  world : World;
  model : QuantumHoneypotModel;
  state_label : string;
  interval_spin : QSpinBox;
  canvas : TimelineCanvas;
  log_box : list string;
  ui_timer : QTimer;
  auto_timer : QTimer;
  alerts : list (string * string)
}.

(** Handlers run in a state monad over the window; an exception leaves the
    assignments made before it in place. *)
Definition M (A : Type) : Type := MainWindow -> (exn + A) * MainWindow.

Definition ret {A : Type} (a : A) : M A := fun s => (inr a, s).

Definition bind {A B : Type} (c : M A) (k : A -> M B) : M B :=
  fun s =>
    match c s with
    | (inr a, s') => k a s'
    | (inl e, s') => (inl e, s')
    end.

Definition raise {A : Type} (e : exn) : M A := fun s => (inl e, s).

Definition lift {A : Type} (r : exn + A) : M A :=
  match r with
  | inr a => ret a
  | inl e => raise e
  end.

Definition modify (f : MainWindow -> MainWindow) : M unit :=
  fun s => (inr tt, f s).

Definition get : M MainWindow := fun s => (inr s, s).

Notation "x <- c ;; k" := (bind c (fun x => k))
  (at level 61, c at next level, right associativity).
Notation "c ;; k" := (bind c (fun _ => k))
  (at level 61, right associativity).

Definition set_world (w : World) (s : MainWindow) : MainWindow :=
  mkWindow w (model s) (state_label s) (interval_spin s) (canvas s)
           (log_box s) (ui_timer s) (auto_timer s) (alerts s).

Definition set_model (m : QuantumHoneypotModel) (s : MainWindow) : MainWindow :=
  mkWindow (world s) m (state_label s) (interval_spin s) (canvas s)
           (log_box s) (ui_timer s) (auto_timer s) (alerts s).

Definition setText (text : string) (s : MainWindow) : MainWindow :=
  mkWindow (world s) (model s) text (interval_spin s) (canvas s)
           (log_box s) (ui_timer s) (auto_timer s) (alerts s).

Definition set_interval_spin (b : QSpinBox) (s : MainWindow) : MainWindow :=
  mkWindow (world s) (model s) (state_label s) b (canvas s)
           (log_box s) (ui_timer s) (auto_timer s) (alerts s).

Definition set_canvas (c : TimelineCanvas) (s : MainWindow) : MainWindow :=
  mkWindow (world s) (model s) (state_label s) (interval_spin s) c
           (log_box s) (ui_timer s) (auto_timer s) (alerts s).

Definition set_log_box (l : list string) (s : MainWindow) : MainWindow :=
  mkWindow (world s) (model s) (state_label s) (interval_spin s) (canvas s)
           l (ui_timer s) (auto_timer s) (alerts s).

Definition set_ui_timer (t : QTimer) (s : MainWindow) : MainWindow :=
  mkWindow (world s) (model s) (state_label s) (interval_spin s) (canvas s)
           (log_box s) t (auto_timer s) (alerts s).

Definition set_auto_timer (t : QTimer) (s : MainWindow) : MainWindow :=
  mkWindow (world s) (model s) (state_label s) (interval_spin s) (canvas s)
           (log_box s) (ui_timer s) t (alerts s).

(** [QMessageBox.warning(self, title, text)]. *)
Definition warning (title text : string) (s : MainWindow) : MainWindow :=
  mkWindow (world s) (model s) (state_label s) (interval_spin s) (canvas s)
           (log_box s) (ui_timer s) (auto_timer s) (alerts s ++ [(title, text)]).

(** *** Calls into the model *)

Definition model_measure : M (option string) :=
  fun s =>
    let '(v, m, w) := measure (world s) (model s) in
    (inr v, set_world w (set_model m s)).

Definition model_intrusion_attempt : M (bool * option string) :=
  fun s =>
    let '(r, m, w) := intrusion_attempt (world s) (model s) in
    (inr r, set_world w (set_model m s)).

Definition model_reset : M unit :=
  fun s =>
    let (m, w) := reset (world s) (model s) in
    (inr tt, set_world w (set_model m s)).

(** *** Helpers *)

Definition _current_time : M Z :=
  fun s =>
    let (t, w) := read_clock (world s) in
    (inr t, set_world w s).

Definition _append_graph (value : num) : M unit :=
  t <- _current_time ;;
  modify (fun s => set_canvas (Canvas.append t value (canvas s)) s).

(** [_log]: the line is appended to the log; the [HH:MM:SS] prefix taken
    from the wall clock is not part of the model. *)
Definition _log (text : string) : M unit :=
  modify (fun s => set_log_box (log_box s ++ [text]) s).

Definition str_of_Z (z : Z) : string :=
  DecimalString.NilZero.string_of_int (Z.to_int z).

(** The title and text of the intrusion alert. *)
Definition alert : string * string :=
  ("Intrusion Alert",
   ("Unauthorized access detected!" ++ String (ascii_of_nat 10) "Quantum trap triggered.")%string).

(** *** UI actions *)

Definition on_measure : M unit :=
  outcome <- model_measure ;;
  modify (setText ("Quantum Data: collapsed → " ++ fmt outcome)%string) ;;
  _log ("Measurement performed: collapsed to " ++ fmt outcome ++ ".")%string ;;
  v <- lift (py_int outcome) ;;
  _append_graph (Int v).

Definition on_intrusion : M unit :=
  r <- model_intrusion_attempt ;;
  let (measured_now, outcome) := (r : bool * option string) in
  t <- _current_time ;;
  (if measured_now then
     modify (setText ("Quantum Data: collapsed by intrusion → " ++ fmt outcome)%string) ;;
     _log ("⚠ Intrusion: triggered collapse to " ++ fmt outcome ++ ".")%string ;;
     v <- lift (py_int outcome) ;;
     modify (fun s => set_canvas (mark_intrusion t (Int v) (canvas s)) s) ;;
     v' <- lift (py_int outcome) ;;
     _append_graph (Int v')
   else
     _log ("⚠ Intrusion detected (post-collapse). Value remains " ++ fmt outcome ++ ".")%string ;;
     v <- lift (py_int outcome) ;;
     modify (fun s => set_canvas (mark_intrusion t (Int v) (canvas s)) s)) ;;
  modify (warning (fst alert) (snd alert)).

Definition on_reset : M unit :=
  model_reset ;;
  s <- get ;;
  modify (setText ("Quantum Data: " ++ quantum_state (model s) ++ " (pre-measurement)")%string) ;;
  _log "System reset. Quantum state reinitialized." ;;
  s <- get ;;
  c <- lift (Canvas.clear (canvas s)) ;;
  modify (set_canvas c) ;;
  _append_graph NaN.

(** [state] is whatever object the caller hands over; it is compared with
    the member [Qt.CheckState.Checked]. *)
Definition on_auto_changed (state : pyobj) : M unit :=
  if py_eq state (PyMember Checked) then
      s <- get ;;
      let interval := Qt.value (interval_spin s) * 1000 in
      modify (fun s => set_auto_timer (start_with interval (auto_timer s)) s) ;;
      s <- get ;;
      _log ("Auto intrusion enabled every " ++ str_of_Z (Qt.value (interval_spin s)) ++ " s.")%string
  else
      modify (fun s => set_auto_timer (stop (auto_timer s)) s) ;;
      _log "Auto intrusion disabled.".

Definition _ui_tick : M unit :=
  s <- get ;;
  val <- (if collapsed (model s)
          then v <- lift (py_int (collapsed_value (model s))) ;; ret (Int v)
          else ret NaN) ;;
  _append_graph val.

(** *** Construction *)

(** The window before [__init__] has assigned anything. *)
Definition blank (w : World) : MainWindow :=
  mkWindow w (mkModel "" false None 0) "" QSpinBox_new (Canvas.empty 0)
           [] QTimer_new QTimer_new [].

(** [__init__]. *)
Definition init : M unit :=
  (fun s =>
     let (m, w) := Cell.init (world s) in
     (inr tt, set_world w (set_model m s))) ;;
  s <- get ;;
  modify (setText ("Quantum Data: " ++ quantum_state (model s) ++ " (pre-measurement)")%string) ;;
  b <- lift (setValue 5 (setRange 1 60 QSpinBox_new)) ;;
  modify (set_interval_spin b) ;;
  c <- lift (Canvas.init 400) ;;
  modify (set_canvas c) ;;
  modify (set_log_box []) ;;
  modify (set_ui_timer (start (setInterval 500 QTimer_new))) ;;
  modify (set_auto_timer QTimer_new) ;;
  _append_graph NaN ;;
  s <- get ;;
  _log ("System initialized. Quantum state set to " ++ quantum_state (model s))%string.

(** The window as [main] shows it. *)
Definition boot (w : World) : MainWindow := snd (init (blank w)).

(** *** The event loop *)

(** What the user and the two timers can make happen.  [AutoStateChanged c]
    is a change of the check box to the state [c]; [IntervalEdited v] is an
    edit of the spin box towards [v]. *)
Inductive event :=
| MeasureClicked
| IntrudeClicked
| ResetClicked
| AutoStateChanged (state : CheckState)
| IntervalEdited (v : Z)
| UiTimeout
| AutoTimeout.

(** The slot connected to each signal.  The check box is connected through
    [stateChanged(int)], which hands the slot the integer of the new state.
    No slot is connected to the spin box: editing it only changes its
    value.  A stopped timer does not fire. *)
Definition dispatch (e : event) : M unit :=
  match e with
  | MeasureClicked => on_measure
  | IntrudeClicked => on_intrusion
  | ResetClicked => on_reset
  | AutoStateChanged state => on_auto_changed (PyInt (int_of state))
  | IntervalEdited v =>
      modify (fun s => set_interval_spin (edited v (interval_spin s)) s)
  | UiTimeout =>
      s <- get ;;
      if active (ui_timer s) then _ui_tick else ret tt
  | AutoTimeout =>
      s <- get ;;
      if active (auto_timer s) then on_intrusion else ret tt
  end.

Fixpoint exec (es : list event) : M unit :=
  match es with
  | [] => ret tt
  | e :: es' => dispatch e ;; exec es'
  end.

(** The window after the events [es], oldest first, in the world [w]. *)
Definition after (es : list event) (w : World) : MainWindow :=
  snd (exec es (boot w)).

(** *** The invariant of the running window *)

Definition outcome_ok (m : QuantumHoneypotModel) : Prop :=
  if collapsed m
  then collapsed_value m = Some "0" \/ collapsed_value m = Some "1"
  else collapsed_value m = None.

Definition binary (v : num) : Prop := v = Int 0 \/ v = Int 1.

Definition inv (s : MainWindow) : Prop :=
  outcome_ok (model s)
  /\ max_points (canvas s) = 400
  /\ Canvas.ok (canvas s)
  /\ Forall (fun m => binary (snd m)) (intrusion_times (canvas s))
  /\ minimum (interval_spin s) = 1 /\ maximum (interval_spin s) = 60
  /\ 1 <= Qt.value (interval_spin s) <= 60.

(** *** Two statements of the specification about the auto-intrusion
    interval, as predicates on the window *)

(** [self.interval_spin.setValue(v)], as a caller that supplies the
    interval would write it. *)
Definition set_interval (v : Z) : M unit :=
  s <- get ;;
  b <- lift (setValue v (interval_spin s)) ;;
  modify (set_interval_spin b).

(** Supplying the interval [v] and ticking the check box. *)
Definition configure (v : Z) : M unit :=
  set_interval v ;; dispatch (AutoStateChanged Checked).

(** Configuring auto-intrusion with the interval [v] is refused with an
    exception. *)
Definition rejected (v : Z) (s : MainWindow) : Prop :=
  exists e : exn, fst (configure v s) = inl e.

(** Editing the interval to [v] restarts the auto-intrusion timer with the
    period of [v] seconds. *)
Definition retimed (v : Z) (s : MainWindow) : Prop :=
  let s' := snd (dispatch (IntervalEdited v) s) in
  interval (auto_timer s') = v * 1000
  /\ starts (auto_timer s') = S (starts (auto_timer s)).

End Window.

(** ** A world for the examples *)

(** Draws 0, 1, 2, ...; the clock advances by a quarter of a second at
    every reading. *)
Definition demo_world : World :=
  mkWorld (fun k => k) 0%nat (fun k => 25 * Z.of_nat k) 0%nat.

(** ** What [_redraw] puts on the axes *)

Module Render.

Import Canvas.

(** A height on the y axis: a plotted value, the level [0.5] of the dashed
    line, or the level [0.05] of a marker without a value. *)
Inductive height := At (z : Z) | Half | Low.

(** The artists added by [ax.step], [ax.scatter], the dashed [ax.plot], the
    marker [ax.plot], [ax.annotate] and [ax.legend]. *)
Inductive artist :=
| Step (ts : list Z) (vs : list num)
| Scatter (ts : list Z) (vs : list num)
| Dashed (ts : list Z) (ys : list height)
| Cross (t : Z) (y : height)
| Annotate (text : string) (t : Z) (y : height)
| Legend.

Definition isnan (v : num) : bool :=
  match v with NaN => true | Int _ => false end.

(** [a[mask]] for a boolean mask: the items at the true places; a mask of
    another length raises [IndexError], rendered by [None]. *)
Fixpoint select {A : Type} (mask : list bool) (a : list A) : option (list A) :=
  match mask, a with
  | [], [] => Some []
  | b :: mask', x :: a' =>
      match select mask' a' with
      | Some r => Some (if b then x :: r else r)
      | None => None
      end
  | _, _ => None
  end.

(** [mask.any()] and [np.sum(mask)]. *)
Definition any (mask : list bool) : bool := existsb (fun b => b) mask.
Definition sum (mask : list bool) : nat := List.length (filter (fun b => b) mask).

Definition marker_y (v : num) : height :=
  match v with NaN => Low | Int z => At z end.

Definition markers (l : list (Z * num)) : list artist :=
  flat_map (fun m => [Cross (fst m) (marker_y (snd m));
                      Annotate "intrusion" (fst m) (marker_y (snd m))]) l.

(** The artists on the axes after [_redraw], in the order they are added;
    [None] when an indexing raises. *)
Definition redraw_artists (self : TimelineCanvas) : option (list artist) :=
  if (0 <? List.length (Deque.items (times self)))%nat then
    let times := Deque.items (times self) in
    let values := Deque.items (values self) in
    let known_mask := map (fun v => negb (isnan v)) values in
    let unknown_mask := map isnan values in
    match
      (if any known_mask then
         match select known_mask times, select known_mask values with
         | Some ts, Some vs => Some [Step ts vs; Scatter ts vs]
         | _, _ => None
         end
       else Some [])
    with
    | None => None
    | Some known =>
        match
          (if any unknown_mask then
             match select unknown_mask times with
             | Some ts => Some [Dashed ts (repeat Half (sum unknown_mask))]
             | None => None
             end
           else Some [])
        with
        | None => None
        | Some unknown =>
            Some (known ++ unknown ++ markers (intrusion_times self) ++ [Legend])
        end
    end
  else Some [].

End Render.

(** ** Summaries of a sequence of events *)

Module Trace.

Import Qt Window.

Definition is_reset (e : event) : bool :=
  match e with ResetClicked => true | _ => false end.

(** The number of log lines the slot of [e] writes in the window [s]. *)
Definition lines (e : event) (s : MainWindow) : nat :=
  match e with
  | MeasureClicked | IntrudeClicked | ResetClicked | AutoStateChanged _ => 1
  | AutoTimeout => if active (auto_timer s) then 1 else 0
  | IntervalEdited _ | UiTimeout => 0
  end.

(** The number of alerts the slot of [e] raises in the window [s]. *)
Definition alarms (e : event) (s : MainWindow) : nat :=
  match e with
  | IntrudeClicked => 1
  | AutoTimeout => if active (auto_timer s) then 1 else 0
  | _ => 0
  end.

(** The number and the digit of an outcome. *)
Definition outcome_pair (v : Z) (o : string) : Prop :=
  (v = 0 /\ o = "0") \/ (v = 1 /\ o = "1").

(** [w'] is [w] after [k] more clock readings and [d] more draws. *)
Definition advanced (k d : nat) (w w' : World) : Prop :=
  entropy w' = entropy w /\ clock w' = clock w
  /\ reads w' = (k + reads w)%nat /\ drawn w' = (d + drawn w)%nat.

(** The values on the timeline are unknown up to some point and one fixed
    number from there on, which is the cell's value; the markers carry that
    number, and there is none while the cell is not collapsed. *)
Definition step_shaped (s : MainWindow) : Prop :=
  exists (a b : nat) (v : Z),
    Deque.items (Canvas.values (canvas s)) = repeat NaN a ++ repeat (Int v) b
    /\ if Cell.collapsed (model s)
       then (exists o : string,
               outcome_pair v o /\ Cell.collapsed_value (model s) = Some o)
            /\ Forall (fun m => snd m = Int v) (Canvas.intrusion_times (canvas s))
       else b = 0%nat /\ Canvas.intrusion_times (canvas s) = [].

(** Every timestamp on the canvas is at most [bound]. *)
Definition stamped_before (bound : Z) (c : Canvas.TimelineCanvas) : Prop :=
  Forall (fun t => t <= bound) (Deque.items (Canvas.times c))
  /\ Forall (fun t => t <= bound) (map fst (Canvas.intrusion_times c)).

(** The timestamps of the samples and of the markers are in order. *)
Definition in_order (c : Canvas.TimelineCanvas) : Prop :=
  StronglySorted Z.le (Deque.items (Canvas.times c))
  /\ StronglySorted Z.le (map fst (Canvas.intrusion_times c)).

End Trace.

(** * Properties of the cell *)

Section CellFacts.

Import Cell.

Lemma measure_collapsed (w : World) (self : QuantumHoneypotModel) :
  collapsed self = true -> measure w self = (collapsed_value self, self, w).
Proof.
  intros H. unfold measure. now rewrite H.
Qed.

Lemma probe_step_collapsed (p : probe) (w : World) (self : QuantumHoneypotModel) :
  collapsed self = true -> probe_step p (self, w) = (collapsed_value self, (self, w)).
Proof.
  intros H. destruct p; unfold probe_step, intrusion_attempt.
  - now rewrite measure_collapsed.
  - now rewrite H.
Qed.

Lemma probe_step_result (p : probe) (w : World) (self : QuantumHoneypotModel) :
  let r := probe_step p (self, w) in
  collapsed (fst (snd r)) = true
  /\ collapsed_value (fst (snd r)) = fst r
  /\ drawn (snd (snd r)) = (if collapsed self then drawn w else S (drawn w)).
Proof.
  destruct (collapsed self) eqn:E.
  - cbv zeta. rewrite probe_step_collapsed by assumption. cbn. auto.
  - destruct p; unfold probe_step, intrusion_attempt, measure;
      rewrite ?E; cbn; rewrite ?E; cbn; auto.
Qed.

Lemma probes_collapsed (ps : list probe) (w : World) (self : QuantumHoneypotModel) :
  collapsed self = true ->
  probes ps (self, w) = (repeat (collapsed_value self) (List.length ps), (self, w)).
Proof.
  intros H. induction ps as [|p ps IH]; cbn [probes].
  - reflexivity.
  - rewrite probe_step_collapsed by assumption. now rewrite IH.
Qed.

Lemma outcome_binary (k : nat) :
  let o := nth (Nat.modulo k 2) MEASURE_OUTCOMES "" in
  o = "0" \/ o = "1".
Proof.
  cbv zeta. pose proof (Nat.mod_upper_bound k 2 ltac:(discriminate)) as H.
  destruct (Nat.modulo k 2) as [|[|n]]; [cbn; auto .. | exfalso; lia].
Qed.

Lemma step_consistent (c : call) (st : QuantumHoneypotModel * World) :
  consistent (fst st) -> consistent (fst (step c st)).
Proof.
  destruct st as [self w]. intros H. destruct c as [p|]; cbn [step fst snd].
  - destruct (collapsed self) eqn:E.
    + rewrite probe_step_collapsed by assumption. exact H.
    + destruct p; unfold consistent, probe_step, intrusion_attempt, measure;
        rewrite ?E; cbn; rewrite ?E; cbn; split; auto; discriminate.
  - unfold reset, consistent, random_choice. cbn.
    split; [intros H0; now contradiction H0 | discriminate].
Qed.

Lemma run_consistent (cs : list call) (st : QuantumHoneypotModel * World) :
  consistent (fst st) -> consistent (fst (run cs st)).
Proof.
  revert st. unfold run. induction cs as [|c cs IH]; intros st H; cbn [fold_left].
  - exact H.
  - apply IH. now apply step_consistent.
Qed.

Lemma run_app (cs1 cs2 : list call) (st : QuantumHoneypotModel * World) :
  run (cs1 ++ cs2) st = run cs2 (run cs1 st).
Proof. unfold run. apply fold_left_app. Qed.

Lemma run_probes_collapsed (ps : list probe) (st : QuantumHoneypotModel * World) :
  collapsed (fst st) = true -> run (map Probe ps) st = st.
Proof.
  intros H. unfold run. induction ps as [|p ps IH]; cbn [map fold_left].
  - reflexivity.
  - destruct st as [self w]. cbn [step]. cbn [fst] in H.
    rewrite probe_step_collapsed by assumption. exact IH.
Qed.

(** C1: after the first [measure] or [intrusion_attempt] of a sequence, every
    further call returns the value the first one returned, draws nothing
    and leaves the cell and the world as the first call left them; the
    whole sequence makes at most one draw, and none on a collapsed cell. *)
Theorem collapse_happens_once :
  forall (w : World) (self : QuantumHoneypotModel) (p : probe) (ps : list probe),
    let r1 := probe_step p (self, w) in
    let rn := probes ps (snd r1) in
    List.length (fst rn) = List.length ps
    /\ Forall (fun v => v = fst r1) (fst rn)
    /\ snd rn = snd r1
    /\ collapsed_value (fst (snd rn)) = fst r1
    /\ drawn (snd (snd rn)) = (if collapsed self then drawn w else S (drawn w)).
Proof.
  intros w self p ps r1 rn.
  destruct (probe_step_result p w self) as (H1 & H2 & H3).
  fold r1 in H1, H2, H3.
  assert (Hn : rn = (repeat (fst r1) (List.length ps), snd r1)).
  { unfold rn. destruct (snd r1) as [self1 w1] eqn:E1. cbn [fst] in H1, H2.
    rewrite probes_collapsed by assumption. now rewrite H2. }
  rewrite Hn. cbn [fst snd]. repeat split; auto.
  - apply repeat_length.
  - apply Forall_forall. intros v Hv. now apply repeat_spec in Hv.
Qed.

Lemma measure_eq (w : World) (self : QuantumHoneypotModel) :
  measure w self =
  if collapsed self then (collapsed_value self, self, w)
  else (Some (nth (Nat.modulo (entropy w (drawn w)) 2) MEASURE_OUTCOMES ""),
        mkModel (quantum_state self) true
                (Some (nth (Nat.modulo (entropy w (drawn w)) 2) MEASURE_OUTCOMES ""))
                (time self),
        mkWorld (entropy w) (S (drawn w)) (clock w) (reads w)).
Proof.
  unfold measure. now destruct (collapsed self).
Qed.

Lemma intrusion_attempt_eq (w : World) (self : QuantumHoneypotModel) :
  intrusion_attempt w self =
  if collapsed self then ((false, collapsed_value self), self, w)
  else ((true, Some (nth (Nat.modulo (entropy w (drawn w)) 2) MEASURE_OUTCOMES "")),
        mkModel (quantum_state self) true
                (Some (nth (Nat.modulo (entropy w (drawn w)) 2) MEASURE_OUTCOMES ""))
                (time self),
        mkWorld (entropy w) (S (drawn w)) (clock w) (reads w)).
Proof.
  unfold intrusion_attempt. rewrite measure_eq. now destruct (collapsed self).
Qed.

(** C2: [intrusion_attempt] on a cell that is not collapsed makes the
    transition of [measure] (one draw from the two outcomes, stored, with
    [collapsed] set) and answers [True] with the drawn value; on a collapsed
    cell it answers [False] with the stored value and changes nothing. *)
Theorem intrusion_attempt_spec :
  forall (w : World) (self : QuantumHoneypotModel),
    let o := nth (Nat.modulo (entropy w (drawn w)) 2) MEASURE_OUTCOMES "" in
    let self' := mkModel (quantum_state self) true (Some o) (time self) in
    let w' := mkWorld (entropy w) (S (drawn w)) (clock w) (reads w) in
    (o = "0" \/ o = "1")
    /\ measure w self =
         (if collapsed self then (collapsed_value self, self, w)
          else (Some o, self', w'))
    /\ intrusion_attempt w self =
         (if collapsed self then ((false, collapsed_value self), self, w)
          else ((true, Some o), self', w')).
Proof.
  intros w self o self' w'. split; [apply outcome_binary|].
  split; [apply measure_eq | apply intrusion_attempt_eq].
Qed.

(** C3: in every state reached from a new cell by [measure],
    [intrusion_attempt] and [reset], [collapsed_value] is set exactly when
    [collapsed] is true; after a collapse-inducing call, and for as long as
    only such calls follow, [collapsed] is true; [reset] gives a newly drawn
    label, [collapsed = False] and [collapsed_value = None]. *)
Theorem cell_invariant :
  forall (w : World) (cs : list call) (self : QuantumHoneypotModel)
         (p : probe) (ps : list probe),
    consistent (fst (run cs (init w)))
    /\ collapsed (fst (step (Probe p) (self, w))) = true
    /\ collapsed (fst (run (cs ++ Probe p :: map Probe ps) (init w))) = true
    /\ reset w self =
         (mkModel (nth (Nat.modulo (entropy w (drawn w)) 4) QSTATES "") false None 0,
          mkWorld (entropy w) (S (drawn w)) (clock w) (reads w))
    /\ In (quantum_state (fst (reset w self))) QSTATES.
Proof.
  intros w cs self p ps. split; [|split; [|split; [|split]]].
  - apply run_consistent. unfold consistent, init, reset, random_choice. cbn.
    split; [intros H; now contradiction H | discriminate].
  - cbn [step]. apply (probe_step_result p w self).
  - rewrite run_app. change (Probe p :: map Probe ps) with ([Probe p] ++ map Probe ps).
    rewrite run_app. set (st := run cs (init w)).
    assert (H : collapsed (fst (run [Probe p] st)) = true).
    { destruct st as [m1 w1]. apply (probe_step_result p w1 m1). }
    now rewrite run_probes_collapsed.
  - reflexivity.
  - unfold reset, random_choice. cbn [fst quantum_state QSTATES List.length].
    pose proof (Nat.mod_upper_bound (entropy w (drawn w)) 4 ltac:(discriminate)) as H.
    destruct (Nat.modulo (entropy w (drawn w)) 4) as [|[|[|[|n]]]];
      [cbn; auto 6 .. | exfalso; lia].
Qed.

End CellFacts.

(** * Properties of the bounded deque *)

Section DequeFacts.

Context {A : Type}.

Lemma deque_append_maxlen (x : A) (d : Deque.deque A) :
  Deque.maxlen (Deque.append x d) = Deque.maxlen d.
Proof.
  unfold Deque.append.
  now destruct ((0 <=? Deque.maxlen d)
                && (Deque.maxlen d <? Z.of_nat (List.length (Deque.items d ++ [x])))).
Qed.

(** One [append] keeps the last [maxlen] items of the extended list. *)
Lemma deque_append_items (x : A) (d : Deque.deque A) :
  Deque.ok d ->
  Deque.items (Deque.append x d) =
  skipn (List.length (Deque.items d ++ [x]) - Z.to_nat (Deque.maxlen d))
        (Deque.items d ++ [x]).
Proof.
  intros [H0 H1]. unfold Deque.append.
  set (l := Deque.items d ++ [x]).
  assert (Hl : List.length l = S (List.length (Deque.items d))).
  { unfold l. rewrite length_app. cbn. lia. }
  destruct (0 <=? Deque.maxlen d) eqn:E0; [|apply Z.leb_gt in E0; lia].
  destruct (Deque.maxlen d <? Z.of_nat (List.length l)) eqn:E1; cbn [andb Deque.items].
  - apply Z.ltb_lt in E1.
    replace (List.length l - Z.to_nat (Deque.maxlen d))%nat with 1%nat by lia.
    now destruct l.
  - apply Z.ltb_ge in E1.
    replace (List.length l - Z.to_nat (Deque.maxlen d))%nat with 0%nat by lia.
    reflexivity.
Qed.

Lemma deque_append_ok (x : A) (d : Deque.deque A) :
  Deque.ok d -> Deque.ok (Deque.append x d).
Proof.
  intros H. pose proof (deque_append_items x d H) as Hi.
  destruct H as [H0 H1]. split; rewrite deque_append_maxlen; [assumption|].
  rewrite Hi, length_skipn, length_app. cbn. lia.
Qed.

Lemma skipn_keep (m j : nat) (B xs : list A) :
  (j <= List.length B - m)%nat ->
  skipn (List.length (skipn j B ++ xs) - m) (skipn j B ++ xs) =
  skipn (List.length (B ++ xs) - m) (B ++ xs).
Proof.
  intros Hj.
  assert (E : skipn j B ++ xs = skipn j (B ++ xs)).
  { rewrite skipn_app. replace (j - List.length B)%nat with 0%nat by lia.
    now rewrite skipn_0. }
  rewrite E, skipn_skipn, length_skipn. f_equal.
  rewrite length_app. lia.
Qed.

Lemma appends_maxlen (xs : list A) (d : Deque.deque A) :
  Deque.maxlen (Deque.appends xs d) = Deque.maxlen d.
Proof.
  revert d. induction xs as [|x xs IH]; intros d; cbn; [reflexivity|].
  unfold Deque.appends in IH. now rewrite IH, deque_append_maxlen.
Qed.

Lemma appends_ok (xs : list A) (d : Deque.deque A) :
  Deque.ok d -> Deque.ok (Deque.appends xs d).
Proof.
  revert d. induction xs as [|x xs IH]; intros d H; cbn; [assumption|].
  apply IH. now apply deque_append_ok.
Qed.

(** Any number of [append]s keeps the last [maxlen] items, oldest first. *)
Lemma appends_items (xs : list A) (d : Deque.deque A) :
  Deque.ok d ->
  Deque.items (Deque.appends xs d) =
  skipn (List.length (Deque.items d ++ xs) - Z.to_nat (Deque.maxlen d))
        (Deque.items d ++ xs).
Proof.
  revert d. induction xs as [|x xs IH]; intros d H.
  - cbn. rewrite app_nil_r. destruct H as [H0 H1].
    replace (List.length (Deque.items d) - Z.to_nat (Deque.maxlen d))%nat
      with 0%nat by lia.
    reflexivity.
  - cbn [Deque.appends fold_left]. fold (Deque.appends xs (Deque.append x d)).
    rewrite IH by now apply deque_append_ok.
    rewrite deque_append_maxlen, deque_append_items by assumption.
    change (Deque.items d ++ x :: xs) with (Deque.items d ++ [x] ++ xs).
    rewrite app_assoc. apply skipn_keep. lia.
Qed.

End DequeFacts.

(** * Properties of the timeline canvas *)

Section CanvasFacts.

Import Canvas.

Lemma clear_spec (self : TimelineCanvas) :
  clear self =
  if max_points self <? 0 then inl ValueError else inr (empty (max_points self)).
Proof.
  unfold clear, Deque.new, empty. now destruct (max_points self <? 0).
Qed.

Lemma empty_ok (n : Z) : 0 <= n -> ok (empty n).
Proof.
  intros H. unfold ok, Deque.ok, empty. cbn. repeat split; lia.
Qed.

Lemma append_all_fields (xs : list (Z * num)) (c : TimelineCanvas) :
  max_points (append_all xs c) = max_points c
  /\ times (append_all xs c) = Deque.appends (map fst xs) (times c)
  /\ values (append_all xs c) = Deque.appends (map snd xs) (values c)
  /\ intrusion_times (append_all xs c) = intrusion_times c.
Proof.
  revert c. unfold append_all, Deque.appends.
  induction xs as [|[t v] xs IH]; intros c; cbn [fold_left map fst snd].
  - auto.
  - destruct (IH (append t v c)) as (H1 & H2 & H3 & H4).
    rewrite H1, H2, H3, H4. cbn. auto.
Qed.

Lemma append_ok (t : Z) (v : num) (c : TimelineCanvas) :
  ok c -> ok (append t v c).
Proof.
  intros (Ht & Hv & Mt & Mv & L). unfold ok, append, _redraw.
  cbn [times values max_points].
  split; [now apply deque_append_ok|].
  split; [now apply deque_append_ok|].
  rewrite !deque_append_maxlen.
  split; [assumption|]. split; [assumption|].
  rewrite !deque_append_items by assumption.
  rewrite !length_skipn, !length_app, Mt, Mv, L. reflexivity.
Qed.

Lemma mark_intrusion_ok (t : Z) (v : num) (c : TimelineCanvas) :
  ok c -> ok (mark_intrusion t v c).
Proof. intros H. exact H. Qed.

Lemma append_all_ok (xs : list (Z * num)) (c : TimelineCanvas) :
  ok c -> ok (append_all xs c).
Proof.
  revert c. unfold append_all. induction xs as [|[t v] xs IH]; intros c H; cbn.
  - assumption.
  - apply IH. now apply append_ok.
Qed.

Lemma samples_bound (c : TimelineCanvas) :
  ok c -> Z.of_nat (List.length (samples c)) <= max_points c.
Proof.
  intros (Ht & Hv & Mt & Mv & L). unfold samples.
  rewrite length_combine, <- L, Nat.min_id, <- Mt. apply Ht.
Qed.

Lemma combine_fst_snd {X Y : Type} (l : list (X * Y)) :
  combine (map fst l) (map snd l) = l.
Proof.
  induction l as [|[x y] l IH]; cbn; [reflexivity | now rewrite IH].
Qed.

Lemma combine_skipn {X Y : Type} (k : nat) (l1 : list X) (l2 : list Y) :
  combine (skipn k l1) (skipn k l2) = skipn k (combine l1 l2).
Proof.
  revert l1 l2. induction k as [|k IH]; intros l1 l2; [reflexivity|].
  destruct l1 as [|x l1]; [reflexivity|].
  destruct l2 as [|y l2]; cbn [skipn combine]; [now destruct (skipn k l1)|].
  apply IH.
Qed.

Lemma sorted_skipn (k : nat) (l : list Z) :
  StronglySorted Z.lt l -> StronglySorted Z.lt (skipn k l).
Proof.
  revert l. induction k as [|k IH]; intros l H; [exact H|].
  destruct l as [|x l]; [exact H|]. cbn. apply IH. now inversion H.
Qed.

(** After a [clear], the samples are the last [max_points] of those
    appended. *)
Lemma samples_after_clear (n : Z) (ys : list (Z * num)) :
  0 <= n ->
  samples (append_all ys (empty n)) = skipn (List.length ys - Z.to_nat n) ys.
Proof.
  intros Hn. destruct (append_all_fields ys (empty n)) as (_ & Ht & Hv & _).
  unfold samples. rewrite Ht, Hv.
  assert (Ot : Deque.ok (times (empty n))) by (apply empty_ok; assumption).
  assert (Ov : Deque.ok (values (empty n))) by (apply empty_ok; assumption).
  rewrite !appends_items by assumption. cbn.
  rewrite !length_map, combine_skipn. now rewrite combine_fst_snd.
Qed.

Lemma apply_all_fields (os : list op) (c : TimelineCanvas) :
  intrusion_times (apply_all os c) = intrusion_times c ++ marks os
  /\ max_points (apply_all os c) = max_points c.
Proof.
  revert c. unfold apply_all.
  induction os as [|[t v|t v] os IH]; intros c; cbn [fold_left marks apply].
  - now rewrite app_nil_r.
  - destruct (IH (append t v c)) as [H1 H2]. rewrite H1, H2. auto.
  - destruct (IH (mark_intrusion t v c)) as [H1 H2]. rewrite H1, H2. cbn.
    now rewrite <- app_assoc.
Qed.

(** [ok] is an invariant of the canvas: it holds after [__init__] and is
    kept by every mutator. *)
Lemma init_ok (n : Z) (c : TimelineCanvas) : init n = inr c -> ok c.
Proof.
  unfold init. rewrite clear_spec. cbn [max_points empty].
  destruct (n <? 0) eqn:E; [discriminate|].
  intros H. injection H as <-. apply empty_ok. now apply Z.ltb_ge.
Qed.

Lemma apply_all_ok (os : list op) (c : TimelineCanvas) :
  ok c -> ok (apply_all os c).
Proof.
  revert c. unfold apply_all.
  induction os as [|[t v|t v] os IH]; intros c H; cbn [fold_left apply].
  - assumption.
  - apply IH. now apply append_ok.
  - apply IH. now apply mark_intrusion_ok.
Qed.

(** C5: on a canvas whose deques respect their bound, any number of
    [append]s leaves at most [max_points] samples; after [clear],
    [max_points + k] appends leave exactly the last [max_points] samples in
    the order they were appended, the first [k] having been dropped, and
    increasing timestamps stay increasing. *)
Theorem samples_bounded_fifo
  (c : TimelineCanvas) (xs ys : list (Z * num)) (n : Z) (k : nat) :
  ok c ->
  0 <= n ->
  List.length ys = (Z.to_nat n + k)%nat ->
  (ok (append_all xs c)
   /\ max_points (append_all xs c) = max_points c
   /\ Z.of_nat (List.length (samples (append_all xs c))) <= max_points c)
  /\ clear (empty n) = inr (empty n)
  /\ samples (append_all ys (empty n)) = skipn k ys
  /\ Z.of_nat (List.length (samples (append_all ys (empty n)))) = n
  /\ (StronglySorted Z.lt (map fst ys) ->
      StronglySorted Z.lt (map fst (samples (append_all ys (empty n))))).
Proof.
  intros Hc Hn Hl.
  assert (Hs : samples (append_all ys (empty n)) = skipn k ys).
  { rewrite samples_after_clear by assumption. f_equal. lia. }
  split; [|split; [|split; [|split]]].
  - pose proof (append_all_ok xs c Hc) as Hok.
    destruct (append_all_fields xs c) as (Hm & _).
    repeat split; try apply Hok; try assumption.
    rewrite <- Hm. now apply samples_bound.
  - rewrite clear_spec. cbn [max_points empty].
    destruct (n <? 0) eqn:E; [apply Z.ltb_lt in E; lia | reflexivity].
  - exact Hs.
  - rewrite Hs, length_skipn. lia.
  - intros Hsorted. rewrite Hs, <- skipn_map. now apply sorted_skipn.
Qed.

(** C6: [mark_intrusion] changes neither the two deques nor [max_points]
    and adds its marker at the end; through any sequence of [append] and
    [mark_intrusion] calls, and so for any number of markers since the last
    [clear], every marker is kept, in order. *)
Theorem markers_never_evicted :
  forall (c : TimelineCanvas) (t : Z) (v : num) (os : list op) (n : Z),
    times (mark_intrusion t v c) = times c
    /\ values (mark_intrusion t v c) = values c
    /\ max_points (mark_intrusion t v c) = max_points c
    /\ samples (mark_intrusion t v c) = samples c
    /\ intrusion_times (mark_intrusion t v c) = intrusion_times c ++ [(t, v)]
    /\ intrusion_times (apply_all os c) = intrusion_times c ++ marks os
    /\ intrusion_times (apply_all os (empty n)) = marks os
    /\ clear c = (if max_points c <? 0 then inl ValueError
                  else inr (empty (max_points c))).
Proof.
  intros c t v os n. repeat split.
  - apply apply_all_fields.
  - now destruct (apply_all_fields os (empty n)) as [H _].
  - apply clear_spec.
Qed.

End CanvasFacts.

(** * Properties of the window *)

Section WindowFacts.

Import Cell Canvas Qt Window.

Ltac open_window s :=
  destruct s as [w m lbl spin cv lg ut aut al]; destruct m as [q c o tm];
  unfold outcome_ok;
  cbn [model collapsed collapsed_value world canvas alerts interval_spin
       ui_timer auto_timer].

Ltac finish := repeat split; auto; unfold outcome_ok; lazy; auto.

(** What [on_intrusion] does to a window whose cell is well formed. *)
Lemma on_intrusion_effect (s : MainWindow) :
  outcome_ok (model s) ->
  let r := on_intrusion s in
  let s' := snd r in
  let t := clock (world s) (reads (world s)) in
  fst r = inr tt
  /\ exists v : Z,
      (v = 0 \/ v = 1)
      /\ py_int (collapsed_value (model s')) = inr v
      /\ outcome_ok (model s')
      /\ collapsed (model s') = true
      /\ canvas s' =
           (if collapsed (model s)
            then mark_intrusion t (Int v) (canvas s)
            else Canvas.append (clock (world s) (S (reads (world s)))) (Int v)
                               (mark_intrusion t (Int v) (canvas s)))
      /\ (if collapsed (model s) then model s' = model s
          else drawn (world s') = S (drawn (world s)))
      /\ alerts s' = alerts s ++ [alert]
      /\ interval_spin s' = interval_spin s
      /\ ui_timer s' = ui_timer s
      /\ auto_timer s' = auto_timer s.
Proof.
  open_window s. intros H. cbv zeta.
  unfold on_intrusion, bind, model_intrusion_attempt.
  rewrite intrusion_attempt_eq.
  cbn [model collapsed collapsed_value world].
  destruct c.
  - destruct H as [H|H]; subst o.
    + split; [reflexivity|]. exists 0. finish.
    + split; [reflexivity|]. exists 1. finish.
  - subst o.
    destruct (outcome_binary (entropy w (drawn w))) as [Ho|Ho];
      cbv zeta in Ho; rewrite Ho.
    + split; [reflexivity|]. exists 0. finish.
    + split; [reflexivity|]. exists 1. finish.
Qed.

Lemma on_measure_effect (s : MainWindow) :
  outcome_ok (model s) ->
  let r := on_measure s in
  let s' := snd r in
  fst r = inr tt
  /\ exists v : Z,
      (v = 0 \/ v = 1)
      /\ outcome_ok (model s')
      /\ canvas s' =
           Canvas.append (clock (world s) (reads (world s))) (Int v) (canvas s)
      /\ interval_spin s' = interval_spin s
      /\ ui_timer s' = ui_timer s
      /\ auto_timer s' = auto_timer s.
Proof.
  open_window s. intros H. cbv zeta.
  unfold on_measure, bind, model_measure.
  rewrite measure_eq.
  cbn [model collapsed collapsed_value world].
  destruct c.
  - destruct H as [H|H]; subst o.
    + split; [reflexivity|]. exists 0. finish.
    + split; [reflexivity|]. exists 1. finish.
  - subst o.
    destruct (outcome_binary (entropy w (drawn w))) as [Ho|Ho];
      cbv zeta in Ho; rewrite Ho.
    + split; [reflexivity|]. exists 0. finish.
    + split; [reflexivity|]. exists 1. finish.
Qed.

Lemma ui_tick_effect (s : MainWindow) :
  outcome_ok (model s) ->
  let r := _ui_tick s in
  let s' := snd r in
  fst r = inr tt
  /\ model s' = model s
  /\ (exists v : num,
        canvas s' = Canvas.append (clock (world s) (reads (world s))) v (canvas s))
  /\ interval_spin s' = interval_spin s
  /\ ui_timer s' = ui_timer s
  /\ auto_timer s' = auto_timer s.
Proof.
  open_window s. intros H. cbv zeta. destruct c.
  - destruct H as [H|H]; subst o.
    + split; [reflexivity|]. split; [reflexivity|].
      split; [exists (Int 0); reflexivity | finish].
    + split; [reflexivity|]. split; [reflexivity|].
      split; [exists (Int 1); reflexivity | finish].
  - subst o. split; [reflexivity|]. split; [reflexivity|].
    split; [exists NaN; reflexivity | finish].
Qed.

Lemma on_reset_effect (s : MainWindow) :
  max_points (canvas s) = 400 ->
  let r := on_reset s in
  let s' := snd r in
  fst r = inr tt
  /\ model s' = fst (reset (world s) (model s))
  /\ drawn (world s') = S (drawn (world s))
  /\ canvas s' = Canvas.append (clock (world s) (reads (world s))) NaN (empty 400)
  /\ interval_spin s' = interval_spin s
  /\ ui_timer s' = ui_timer s
  /\ auto_timer s' = auto_timer s
  /\ alerts s' = alerts s.
Proof.
  open_window s. destruct cv as [mp ts vs its]. cbn [max_points].
  intros H. subst mp. cbv zeta. repeat split; reflexivity.
Qed.

Lemma on_auto_changed_effect (state : pyobj) (s : MainWindow) :
  let r := on_auto_changed state s in
  let s' := snd r in
  fst r = inr tt
  /\ world s' = world s
  /\ model s' = model s
  /\ canvas s' = canvas s
  /\ interval_spin s' = interval_spin s
  /\ ui_timer s' = ui_timer s
  /\ alerts s' = alerts s
  /\ auto_timer s' =
       (if py_eq state (PyMember Checked)
        then start_with (Qt.value (interval_spin s) * 1000) (auto_timer s)
        else stop (auto_timer s)).
Proof.
  destruct s as [w m lbl spin cv lg ut aut al]. unfold on_auto_changed.
  destruct (py_eq state (PyMember Checked)); cbv zeta; repeat split; reflexivity.
Qed.

Lemma interval_edited_effect (v : Z) (s : MainWindow) :
  let r := dispatch (IntervalEdited v) s in
  let s' := snd r in
  fst r = inr tt
  /\ world s' = world s
  /\ model s' = model s
  /\ canvas s' = canvas s
  /\ ui_timer s' = ui_timer s
  /\ auto_timer s' = auto_timer s
  /\ alerts s' = alerts s
  /\ interval_spin s' = edited v (interval_spin s).
Proof.
  destruct s as [w m lbl spin cv lg ut aut al].
  cbv zeta; repeat split; reflexivity.
Qed.

Lemma bound_range (lo hi v : Z) : lo <= hi -> lo <= bound lo hi v <= hi.
Proof. unfold bound. lia. Qed.

Lemma binary_snoc (l : list (Z * num)) (t v : Z) :
  Forall (fun m => binary (snd m)) l -> v = 0 \/ v = 1 ->
  Forall (fun m => binary (snd m)) (l ++ [(t, Int v)]).
Proof.
  intros Hl Hv. apply Forall_app. split; [assumption|].
  constructor; [|constructor]. unfold binary. cbn. destruct Hv; subst; auto.
Qed.

(** Every slot runs to completion on a window that satisfies [inv], and
    leaves it so. *)
Lemma dispatch_inv (e : event) (s : MainWindow) :
  inv s -> fst (dispatch e s) = inr tt /\ inv (snd (dispatch e s)).
Proof.
  intros (Ho & Hm & Hc & Hb & Hlo & Hhi & Hv).
  assert (Hint : fst (on_intrusion s) = inr tt /\ inv (snd (on_intrusion s))).
  { destruct (on_intrusion_effect s Ho)
      as (R & v & Hv01 & _ & Ho' & _ & Hcv & _ & _ & Hsp & _ & _).
    split; [exact R|]. unfold inv. rewrite Hsp, Hcv.
    destruct (collapsed (model s)); cbn [max_points intrusion_times];
      repeat split; try assumption; try apply Hc; try (now apply binary_snoc);
      try lia.
    all: try (apply (append_ok _ _ (mark_intrusion _ _ (canvas s))
                       (mark_intrusion_ok _ _ _ Hc))). }
  destruct e; [cbn [dispatch] .. | | cbn [dispatch] | cbn [dispatch]].
  - destruct (on_measure_effect s Ho) as (R & v & _ & Ho' & Hcv & Hsp & _ & _).
    split; [exact R|]. unfold inv. rewrite Hsp, Hcv.
    cbn [max_points intrusion_times].
    repeat split; try assumption; try lia; apply (append_ok _ _ _ Hc).
  - exact Hint.
  - destruct (on_reset_effect s Hm) as (R & Hmod & _ & Hcv & Hsp & _ & _ & _).
    split; [exact R|]. unfold inv. rewrite Hsp, Hcv, Hmod.
    split; [reflexivity|]. split; [reflexivity|].
    split; [apply append_ok, empty_ok; lia|].
    split; [constructor|]. auto.
  - destruct (on_auto_changed_effect (PyInt (int_of state)) s)
      as (R & _ & Hmod & Hcv & Hsp & _ & _ & _).
    split; [exact R|]. unfold inv. rewrite Hsp, Hcv, Hmod.
    repeat split; try assumption; try lia; apply Hc.
  - destruct (interval_edited_effect v s)
      as (R & _ & Hmod & Hcv & _ & _ & _ & Hsp).
    split; [exact R|]. unfold inv. rewrite Hsp, Hcv, Hmod.
    unfold edited. cbn [minimum maximum Qt.value]. rewrite Hlo, Hhi.
    pose proof (bound_range 1 60 v ltac:(lia)).
    repeat split; try assumption; try lia; apply Hc.
  - unfold bind, get. destruct (active (ui_timer s)).
    + destruct (ui_tick_effect s Ho) as (R & Hmod & [x Hcv] & Hsp & _ & _).
      split; [exact R|]. unfold inv. rewrite Hsp, Hcv, Hmod.
      cbn [max_points intrusion_times].
      repeat split; try assumption; try lia; apply (append_ok _ _ _ Hc).
    + split; [reflexivity|]. unfold inv. cbn [ret snd].
      repeat split; try assumption; try lia; apply Hc.
  - unfold bind, get. destruct (active (auto_timer s)).
    + exact Hint.
    + split; [reflexivity|]. unfold inv. cbn [ret snd].
      repeat split; try assumption; try lia; apply Hc.
Qed.

Lemma exec_cons (e : event) (es : list event) (s : MainWindow) :
  fst (dispatch e s) = inr tt ->
  exec (e :: es) s = exec es (snd (dispatch e s)).
Proof.
  intros H. cbn [exec]. unfold bind.
  destruct (dispatch e s) as [[x|[]] s']; cbn in *; [discriminate | reflexivity].
Qed.

Lemma exec_inv (es : list event) (s : MainWindow) :
  inv s -> fst (exec es s) = inr tt /\ inv (snd (exec es s)).
Proof.
  revert s. induction es as [|e es IH]; intros s H.
  - split; [reflexivity | exact H].
  - destruct (dispatch_inv e s H) as [R H'].
    rewrite exec_cons by assumption. now apply IH.
Qed.

Lemma boot_inv (w : World) : inv (boot w).
Proof.
  assert (Hc : canvas (boot w) = Canvas.append (clock w (reads w)) NaN (empty 400))
    by reflexivity.
  unfold inv. rewrite Hc.
  repeat split; try reflexivity; try (cbn; lia); try constructor;
    try apply (append_ok _ _ _ (empty_ok 400 ltac:(lia)));
    try discriminate.
Qed.

Lemma after_inv (es : list event) (w : World) : inv (after es w).
Proof. apply exec_inv, boot_inv. Qed.

Lemma combine_snoc {X Y : Type} (l1 : list X) (l2 : list Y) (x : X) (y : Y) :
  List.length l1 = List.length l2 ->
  combine (l1 ++ [x]) (l2 ++ [y]) = combine l1 l2 ++ [(x, y)].
Proof.
  revert l2. induction l1 as [|a l1 IH]; intros [|b l2] H; try discriminate.
  - reflexivity.
  - cbn. f_equal. apply IH. now injection H.
Qed.

(** One [append] on a canvas with room for at least one sample: the new
    sample comes last, after the old ones, the oldest of which is dropped
    when the canvas was full. *)
Lemma append_samples (t : Z) (v : num) (c : TimelineCanvas) :
  Canvas.ok c -> 1 <= max_points c ->
  samples (Canvas.append t v c) =
  (if (List.length (samples c) <? Z.to_nat (max_points c))%nat
   then samples c else tl (samples c)) ++ [(t, v)].
Proof.
  intros (Ht & Hv & Mt & Mv & L) Hm.
  assert (Hlen : List.length (samples c) = List.length (Deque.items (times c))).
  { unfold samples. now rewrite length_combine, <- L, Nat.min_id. }
  assert (Hb : Z.of_nat (List.length (Deque.items (times c))) <= max_points c).
  { rewrite <- Mt. apply Ht. }
  unfold samples in *. cbn [times values Canvas.append _redraw].
  rewrite !deque_append_items by assumption.
  rewrite Mt, Mv, !length_app, <- L. cbn [List.length].
  rewrite combine_skipn, combine_snoc by assumption.
  rewrite Hlen.
  destruct (List.length (Deque.items (times c)) <? Z.to_nat (max_points c))%nat eqn:E.
  - apply Nat.ltb_lt in E.
    replace (List.length (Deque.items (times c)) + 1 - Z.to_nat (max_points c))%nat
      with 0%nat by lia.
    reflexivity.
  - apply Nat.ltb_ge in E.
    replace (List.length (Deque.items (times c)) + 1 - Z.to_nat (max_points c))%nat
      with 1%nat by lia.
    destruct (combine (Deque.items (times c)) (Deque.items (values c))) eqn:Ec.
    + cbn in Hlen. lia.
    + reflexivity.
Qed.

(** C4: whenever the intrusion slot runs, it completes, adds exactly one
    marker stamped with the clock reading taken by the slot, and raises the
    alert; on a collapsed cell the samples are untouched and the marker
    carries the stored value; on a cell that was not collapsed the samples
    afterwards are the old ones, without the oldest if there were 400,
    followed by one new sample with the new value. *)
Theorem intrusion_always_marked :
  forall (w : World) (es : list event),
    let s := after es w in
    let r := on_intrusion s in
    let s' := snd r in
    let t := clock (world s) (reads (world s)) in
    fst r = inr tt
    /\ alerts s' = alerts s ++ [alert]
    /\ exists v : Z,
        (v = 0 \/ v = 1)
        /\ py_int (collapsed_value (model s')) = inr v
        /\ intrusion_times (canvas s') = intrusion_times (canvas s) ++ [(t, Int v)]
        /\ (if collapsed (model s)
            then collapsed_value (model s') = collapsed_value (model s)
                 /\ times (canvas s') = times (canvas s)
                 /\ values (canvas s') = values (canvas s)
                 /\ samples (canvas s') = samples (canvas s)
            else times (canvas s') =
                   Deque.append (clock (world s) (S (reads (world s))))
                                (times (canvas s))
                 /\ values (canvas s') = Deque.append (Int v) (values (canvas s))
                 /\ samples (canvas s') =
                      (if (List.length (samples (canvas s)) <? 400)%nat
                       then samples (canvas s) else tl (samples (canvas s)))
                      ++ [(clock (world s) (S (reads (world s))), Int v)]).
Proof.
  intros w es s r s' t.
  destruct (after_inv es w) as (Ho & Hmp & Hok & _). fold s in Ho, Hmp, Hok.
  destruct (on_intrusion_effect s Ho)
    as (R & v & Hv & Hp & _ & _ & Hcv & Hm & Ha & _).
  fold r in R. fold r s' in Hp, Hcv, Hm, Ha. fold t in Hcv.
  split; [exact R|]. split; [exact Ha|].
  exists v. split; [exact Hv|]. split; [exact Hp|].
  rewrite Hcv. destruct (collapsed (model s)).
  - rewrite Hm. repeat split.
  - split; [reflexivity|]. split; [reflexivity|]. split; [reflexivity|].
    rewrite append_samples;
      [|now apply mark_intrusion_ok | cbn [max_points mark_intrusion _redraw]; lia].
    cbn [max_points mark_intrusion _redraw]. rewrite Hmp. reflexivity.
Qed.

(** C7: whenever the reset slot runs, it completes and leaves the cell not
    collapsed, with no stored value and a newly drawn label, no marker, and
    exactly one sample: the unknown value at the clock reading taken by the
    slot. *)
Theorem reset_restarts_timeline :
  forall (w : World) (es : list event),
    let s := after es w in
    let r := on_reset s in
    let s' := snd r in
    fst r = inr tt
    /\ collapsed (model s') = false
    /\ collapsed_value (model s') = None
    /\ quantum_state (model s') =
         nth (Nat.modulo (entropy (world s) (drawn (world s))) 4) QSTATES ""
    /\ drawn (world s') = S (drawn (world s))
    /\ intrusion_times (canvas s') = []
    /\ samples (canvas s') = [(clock (world s) (reads (world s)), NaN)].
Proof.
  intros w es s r s'.
  destruct (after_inv es w) as (_ & Hmp & _). fold s in Hmp.
  destruct (on_reset_effect s Hmp) as (R & Hm & Hd & Hcv & _).
  fold r in R. fold r s' in Hm, Hd, Hcv.
  rewrite Hm, Hcv. repeat split; assumption.
Qed.

Lemma set_interval_effect (v : Z) (s : MainWindow) :
  let r := set_interval v s in
  let s' := snd r in
  world s' = world s /\ model s' = model s /\ canvas s' = canvas s
  /\ ui_timer s' = ui_timer s /\ auto_timer s' = auto_timer s
  /\ log_box s' = log_box s /\ alerts s' = alerts s
  /\ if c_int v
     then fst r = inr tt /\ interval_spin s' = edited v (interval_spin s)
     else fst r = inl OverflowError /\ interval_spin s' = interval_spin s.
Proof.
  destruct s as [w m lbl spin cv lg ut aut al].
  unfold set_interval, bind, get, lift, setValue, edited.
  cbn [interval_spin]. destruct (c_int v); cbv zeta; repeat split; reflexivity.
Qed.

(** C8, as the program has it: an interval outside 1 to 60 seconds is never
    refused with an invalid-configuration condition.  Whenever a value that
    fits a C [int] is handed to the spin box and the check box is ticked,
    both complete without any error and the box silently holds the nearest
    bound; a value that does not fit a C [int] makes the setter raise
    [OverflowError] and leaves the box as it was. *)
Theorem interval_is_clamped :
  forall (w : World) (es : list event) (v : Z),
    let s := after es w in
    let r := configure v s in
    let s' := snd r in
    if c_int v
    then fst r = inr tt
         /\ ~ rejected v s
         /\ Qt.value (interval_spin s') = bound 1 60 v
         /\ 1 <= Qt.value (interval_spin s') <= 60
    else fst r = inl OverflowError
         /\ interval_spin s' = interval_spin s.
Proof.
  intros w es v s r s'.
  pose proof (after_inv es w) as Hinv. fold s in Hinv.
  destruct (set_interval_effect v s) as (_ & _ & _ & _ & _ & _ & _ & Hset).
  unfold s', r, rejected, configure, bind.
  destruct (set_interval v s) as [[e|[]] s1] eqn:E; cbn [fst snd] in Hset.
  - destruct (c_int v); [destruct Hset; discriminate|].
    destruct Hset as [He Hsp]. cbn [fst snd]. split; [exact He | exact Hsp].
  - destruct (c_int v); [|destruct Hset; discriminate].
    destruct Hset as [_ Hsp].
    destruct (on_auto_changed_effect (PyInt (int_of Checked)) s1)
      as (R & _ & _ & _ & Hsp2 & _).
    cbn [dispatch].
    destruct Hinv as (_ & _ & _ & _ & Hlo & Hhi & _).
    assert (Hval : Qt.value (interval_spin (snd (on_auto_changed (PyInt (int_of Checked)) s1)))
                   = bound 1 60 v).
    { rewrite Hsp2, Hsp. unfold edited. cbn [Qt.value]. now rewrite Hlo, Hhi. }
    split; [exact R|]. split; [intros [e He]; congruence|].
    split; [exact Hval|]. rewrite Hval. apply bound_range. lia.
Qed.

(** C9, as the program has it: the slot of the auto-intrusion check box
    never touches the sampling timer, whatever it is handed; editing the
    interval touches neither timer, whether the auto-intrusion timer is
    running or not. *)
Theorem interval_edit_touches_no_timer :
  forall (s : MainWindow) (state : pyobj) (c : CheckState) (v : Z),
    let s1 := snd (dispatch (IntervalEdited v) s) in
    ui_timer (snd (on_auto_changed state s)) = ui_timer s
    /\ ui_timer (snd (dispatch (AutoStateChanged c) s)) = ui_timer s
    /\ ui_timer s1 = ui_timer s
    /\ auto_timer s1 = auto_timer s.
Proof.
  intros s state c v s1.
  destruct (on_auto_changed_effect state s) as (_ & _ & _ & _ & _ & Hu & _).
  destruct (on_auto_changed_effect (PyInt (int_of c)) s)
    as (_ & _ & _ & _ & _ & Hu' & _).
  destruct (interval_edited_effect v s) as (_ & _ & _ & _ & Hu1 & Ha1 & _).
  fold s1 in Hu1, Ha1.
  split; [exact Hu|]. split; [exact Hu'|]. split; [exact Hu1 | exact Ha1].
Qed.

(** C10: in every state of the running window, every marker on the canvas
    carries 0 or 1, never the unknown value. *)
Theorem markers_are_binary :
  forall (w : World) (es : list event),
    Forall (fun m => snd m = Int 0 \/ snd m = Int 1)
           (intrusion_times (canvas (after es w))).
Proof.
  intros w es. destruct (after_inv es w) as (_ & _ & _ & H & _). exact H.
Qed.

(** * Concrete runs *)

(** An interval of 100 seconds is not refused: the spin box silently
    holds 60 and ticking the check box completes. *)
Lemma out_of_range_interval_accepted :
  ~ rejected 100 (boot demo_world)
  /\ fst (configure 100 (boot demo_world)) = inr tt
  /\ Qt.value (interval_spin (snd (configure 100 (boot demo_world)))) = 60.
Proof.
  split; [|split].
  - intros [e He]. vm_compute in He. discriminate.
  - vm_compute. reflexivity.
  - vm_compute. reflexivity.
Qed.

(** After the user has ticked the check box, editing the interval to 10
    seconds leaves the auto-intrusion timer as it was: it is not restarted
    and its period is not 10 seconds.  No edit restarts the timer in any
    window whatever. *)
Lemma interval_edit_keeps_period :
  let s := after [AutoStateChanged Checked] demo_world in
  ~ retimed 10 s
  /\ auto_timer (snd (dispatch (IntervalEdited 10) s)) = auto_timer s
  /\ ~ (exists (s0 : MainWindow) (v : Z), retimed v s0).
Proof.
  cbv zeta. split; [|split].
  - unfold retimed. intros [H _]. vm_compute in H. discriminate.
  - reflexivity.
  - intros (s0 & v & _ & H).
    destruct (interval_edited_effect v s0) as (_ & _ & _ & _ & _ & Ha & _).
    rewrite Ha in H. lia.
Qed.

(** The bounded buffer on three samples and two places. *)
Lemma samples_bounded_fifo_witness :
  let c := append_all [(5, NaN)] (empty 2) in
  let xs := [(10, Int 1); (20, Int 1)] in
  let ys := [(1, NaN); (2, Int 0); (3, Int 0)] in
  ok c /\ 0 <= 2 /\ List.length ys = (Z.to_nat 2 + 1)%nat
  /\ Z.of_nat (List.length (samples (append_all xs c))) <= max_points c
  /\ samples (append_all ys (empty 2)) = [(2, Int 0); (3, Int 0)]
  /\ StronglySorted Z.lt (map fst (samples (append_all ys (empty 2)))).
Proof.
  cbv zeta.
  assert (Hok : ok (append_all [(5, NaN)] (empty 2))).
  { unfold ok, Deque.ok. vm_compute. repeat split; discriminate. }
  assert (Hn : 0 <= 2) by lia.
  assert (Hl : List.length [(1, NaN); (2, Int 0); (3, Int 0)] = (Z.to_nat 2 + 1)%nat)
    by reflexivity.
  assert (Hsorted : StronglySorted Z.lt (map fst [(1, NaN); (2, Int 0); (3, Int 0)])).
  { cbn. repeat constructor. }
  pose proof (samples_bounded_fifo _ [(10, Int 1); (20, Int 1)] _ 2 1 Hok Hn Hl)
    as ((_ & _ & Hb) & _ & Hs & _ & Hord).
  repeat split; try assumption. now apply Hord.
Defined.

End WindowFacts.

(** * The slots in full *)

Section SlotEffects.

Import Cell Canvas Qt Window Trace.

Ltac open_state s :=
  destruct s as [w m lbl spin cv lg ut aut al]; destruct m as [q c o tm];
  unfold outcome_ok;
  cbn [model collapsed collapsed_value quantum_state time world canvas alerts
       interval_spin ui_timer auto_timer log_box state_label].

Ltac close_state := repeat split; auto; lazy; auto.

Lemma on_measure_full (s : MainWindow) :
  outcome_ok (model s) ->
  let s' := snd (on_measure s) in
  exists (v : Z) (o : string),
    outcome_pair v o
    /\ model s' = mkModel (quantum_state (model s)) true (Some o) (time (model s))
    /\ (if collapsed (model s)
        then collapsed_value (model s) = Some o
        else o = nth (Nat.modulo (entropy (world s) (drawn (world s))) 2)
                     MEASURE_OUTCOMES "")
    /\ advanced 1 (if collapsed (model s) then 0 else 1) (world s) (world s')
    /\ canvas s' = Canvas.append (clock (world s) (reads (world s))) (Int v) (canvas s)
    /\ state_label s' = ("Quantum Data: collapsed → " ++ o)%string
    /\ log_box s' =
         log_box s ++ [("Measurement performed: collapsed to " ++ o ++ ".")%string]
    /\ alerts s' = alerts s.
Proof.
  open_state s. intros H. cbv zeta.
  unfold on_measure, bind, model_measure. rewrite measure_eq.
  cbn [model collapsed collapsed_value world].
  unfold advanced, outcome_pair.
  destruct c.
  - destruct H as [H|H]; subst o.
    + exists 0, "0". close_state.
    + exists 1, "1". close_state.
  - subst o.
    destruct (outcome_binary (entropy w (drawn w))) as [Ho|Ho];
      cbv zeta in Ho; rewrite Ho.
    + exists 0, "0". close_state.
    + exists 1, "1". close_state.
Qed.

Lemma on_intrusion_full (s : MainWindow) :
  outcome_ok (model s) ->
  let s' := snd (on_intrusion s) in
  let t := clock (world s) (reads (world s)) in
  exists (v : Z) (o : string),
    outcome_pair v o
    /\ model s' = mkModel (quantum_state (model s)) true (Some o) (time (model s))
    /\ (if collapsed (model s)
        then collapsed_value (model s) = Some o
        else o = nth (Nat.modulo (entropy (world s) (drawn (world s))) 2)
                     MEASURE_OUTCOMES "")
    /\ advanced (if collapsed (model s) then 1 else 2)
                (if collapsed (model s) then 0 else 1) (world s) (world s')
    /\ canvas s' =
         (if collapsed (model s)
          then mark_intrusion t (Int v) (canvas s)
          else Canvas.append (clock (world s) (S (reads (world s)))) (Int v)
                             (mark_intrusion t (Int v) (canvas s)))
    /\ state_label s' =
         (if collapsed (model s) then state_label s
          else ("Quantum Data: collapsed by intrusion → " ++ o)%string)
    /\ log_box s' =
         log_box s ++
         [if collapsed (model s)
          then ("⚠ Intrusion detected (post-collapse). Value remains " ++ o ++ ".")%string
          else ("⚠ Intrusion: triggered collapse to " ++ o ++ ".")%string].
Proof.
  open_state s. intros H. cbv zeta.
  unfold on_intrusion, bind, model_intrusion_attempt. rewrite intrusion_attempt_eq.
  cbn [model collapsed collapsed_value world].
  unfold advanced, outcome_pair.
  destruct c.
  - destruct H as [H|H]; subst o.
    + exists 0, "0". close_state.
    + exists 1, "1". close_state.
  - subst o.
    destruct (outcome_binary (entropy w (drawn w))) as [Ho|Ho];
      cbv zeta in Ho; rewrite Ho.
    + exists 0, "0". close_state.
    + exists 1, "1". close_state.
Qed.

Lemma ui_tick_full (s : MainWindow) :
  outcome_ok (model s) ->
  let s' := snd (_ui_tick s) in
  let t := clock (world s) (reads (world s)) in
  model s' = model s
  /\ advanced 1 0 (world s) (world s')
  /\ (if collapsed (model s)
      then exists (v : Z) (o : string),
             outcome_pair v o /\ collapsed_value (model s) = Some o
             /\ canvas s' = Canvas.append t (Int v) (canvas s)
      else canvas s' = Canvas.append t NaN (canvas s))
  /\ state_label s' = state_label s
  /\ log_box s' = log_box s
  /\ alerts s' = alerts s.
Proof.
  open_state s. intros H. cbv zeta. unfold advanced, outcome_pair. destruct c.
  - destruct H as [H|H]; subst o.
    + repeat split; try reflexivity. exists 0, "0". close_state.
    + repeat split; try reflexivity. exists 1, "1". close_state.
  - subst o. repeat split; reflexivity.
Qed.

Lemma on_reset_full (s : MainWindow) :
  max_points (canvas s) = 400 ->
  let s' := snd (on_reset s) in
  advanced 1 1 (world s) (world s')
  /\ state_label s' =
       ("Quantum Data: " ++ quantum_state (model s') ++ " (pre-measurement)")%string
  /\ log_box s' = log_box s ++ ["System reset. Quantum state reinitialized."].
Proof.
  open_state s. destruct cv as [mp ts vs its]. cbn [max_points].
  intros H. subst mp. cbv zeta. unfold advanced. repeat split; reflexivity.
Qed.

Lemma on_auto_changed_full (state : pyobj) (s : MainWindow) :
  let s' := snd (on_auto_changed state s) in
  state_label s' = state_label s
  /\ log_box s' =
       log_box s ++
       [if py_eq state (PyMember Checked)
        then ("Auto intrusion enabled every "
                ++ str_of_Z (Qt.value (interval_spin s)) ++ " s.")%string
        else "Auto intrusion disabled."].
Proof.
  destruct s as [w m lbl spin cv lg ut aut al]. unfold on_auto_changed.
  destruct (py_eq state (PyMember Checked)); cbv zeta; split; reflexivity.
Qed.

Lemma interval_edited_full (v : Z) (s : MainWindow) :
  let s' := snd (dispatch (IntervalEdited v) s) in
  state_label s' = state_label s /\ log_box s' = log_box s.
Proof.
  destruct s as [w m lbl spin cv lg ut aut al]. split; reflexivity.
Qed.

(** Any property kept by every slot on a window that satisfies [inv] holds
    after every sequence of events. *)
Lemma after_ind (w : World) (P : MainWindow -> Prop) :
  P (boot w) ->
  (forall (e : event) (s : MainWindow), inv s -> P s -> P (snd (dispatch e s))) ->
  forall es : list event, P (after es w).
Proof.
  intros H0 Hstep es. unfold after.
  pose proof (boot_inv w) as Hi. revert H0 Hi. generalize (boot w).
  induction es as [|e es IH]; intros s Hp Hi.
  - exact Hp.
  - destruct (dispatch_inv e s Hi) as [R Hi'].
    rewrite exec_cons by assumption. apply IH; [now apply Hstep | exact Hi'].
Qed.

Lemma exec_app (es1 es2 : list event) (s : MainWindow) :
  inv s -> exec (es1 ++ es2) s = exec es2 (snd (exec es1 s)).
Proof.
  revert s. induction es1 as [|e es1 IH]; intros s H.
  - reflexivity.
  - destruct (dispatch_inv e s H) as [R H'].
    cbn [app]. rewrite !exec_cons by assumption. now apply IH.
Qed.

Lemma after_app (es1 es2 : list event) (w : World) :
  after (es1 ++ es2) w = snd (exec es2 (after es1 w)).
Proof.
  unfold after. now rewrite exec_app by apply boot_inv.
Qed.

Lemma after_snoc (es : list event) (e : event) (w : World) :
  after (es ++ [e]) w = snd (dispatch e (after es w)).
Proof.
  rewrite after_app. cbn [exec]. unfold bind, ret.
  destruct (dispatch e (after es w)) as [[x|[]] s']; reflexivity.
Qed.

End SlotEffects.

(** * What each event does to the cell, the world and the canvas *)

Section Transitions.

Import Cell Canvas Qt Window Trace.

Ltac conj := repeat match goal with |- _ /\ _ => split end.

(** The six ways an event can change the cell, the world and the canvas of
    a window that satisfies [inv]. *)
Lemma dispatch_cases (e : event) (s : MainWindow) :
  inv s ->
  let s' := snd (dispatch e s) in
  let t := clock (world s) (reads (world s)) in
  (model s' = model s /\ world s' = world s /\ canvas s' = canvas s)
  \/ (exists (v : Z) (o : string) (d : nat),
        outcome_pair v o
        /\ collapsed (model s') = true /\ collapsed_value (model s') = Some o
        /\ (if collapsed (model s) then model s' = model s else True)
        /\ advanced 1 d (world s) (world s')
        /\ canvas s' = Canvas.append t (Int v) (canvas s))
  \/ (collapsed (model s) = false /\ model s' = model s
      /\ advanced 1 0 (world s) (world s')
      /\ canvas s' = Canvas.append t NaN (canvas s))
  \/ (exists (v : Z) (o : string),
        outcome_pair v o
        /\ collapsed (model s) = true /\ collapsed_value (model s) = Some o
        /\ model s' = model s
        /\ advanced 1 0 (world s) (world s')
        /\ canvas s' = mark_intrusion t (Int v) (canvas s))
  \/ (exists (v : Z) (o : string),
        outcome_pair v o
        /\ collapsed (model s) = false
        /\ collapsed (model s') = true /\ collapsed_value (model s') = Some o
        /\ advanced 2 1 (world s) (world s')
        /\ canvas s' =
             Canvas.append (clock (world s) (S (reads (world s)))) (Int v)
                           (mark_intrusion t (Int v) (canvas s)))
  \/ (collapsed (model s') = false /\ collapsed_value (model s') = None
      /\ advanced 1 1 (world s) (world s')
      /\ canvas s' = Canvas.append t NaN (empty 400)).
Proof.
  intros (Ho & Hm & _). cbv zeta.
  assert (Hmeasure :
    exists (v : Z) (o : string) (d : nat),
      outcome_pair v o
      /\ collapsed (model (snd (on_measure s))) = true
      /\ collapsed_value (model (snd (on_measure s))) = Some o
      /\ (if collapsed (model s) then model (snd (on_measure s)) = model s else True)
      /\ advanced 1 d (world s) (world (snd (on_measure s)))
      /\ canvas (snd (on_measure s)) =
           Canvas.append (clock (world s) (reads (world s))) (Int v) (canvas s)).
  { destruct (on_measure_full s Ho) as (v & o & Hp & Hmod & Hc & Hw & Hcv & _).
    exists v, o, (if collapsed (model s) then 0 else 1)%nat.
    rewrite Hmod. cbn [collapsed collapsed_value].
    split; [exact Hp|]. split; [reflexivity|]. split; [reflexivity|].
    split; [|split; assumption].
    revert Hc. destruct (model s) as [q c ov tm]. cbn.
    destruct c; [intros ->; reflexivity | intros _; exact I]. }
  assert (Hintr :
    let s' := snd (on_intrusion s) in
    (exists (v : Z) (o : string),
        outcome_pair v o
        /\ collapsed (model s) = true /\ collapsed_value (model s) = Some o
        /\ model s' = model s
        /\ advanced 1 0 (world s) (world s')
        /\ canvas s' =
             mark_intrusion (clock (world s) (reads (world s))) (Int v) (canvas s))
    \/ (exists (v : Z) (o : string),
        outcome_pair v o
        /\ collapsed (model s) = false
        /\ collapsed (model s') = true /\ collapsed_value (model s') = Some o
        /\ advanced 2 1 (world s) (world s')
        /\ canvas s' =
             Canvas.append (clock (world s) (S (reads (world s)))) (Int v)
               (mark_intrusion (clock (world s) (reads (world s))) (Int v)
                               (canvas s)))).
  { cbv zeta.
    destruct (on_intrusion_full s Ho) as (v & o & Hp & Hmod & Hc & Hw & Hcv & _).
    rewrite Hmod. revert Hc Hw Hcv.
    destruct (model s) as [q c ov tm]. cbn.
    destruct c; intros Hc Hw Hcv; [left | right]; exists v, o;
      conj; try assumption; try reflexivity. now rewrite Hc. }
  destruct e; cbn [dispatch].
  - right; left. exact Hmeasure.
  - destruct Hintr as [H|H]; [right; right; right; left | right; right; right; right; left];
      exact H.
  - right; right; right; right; right.
    destruct (on_reset_effect s Hm) as (_ & Hmod & _ & Hcv & _).
    destruct (on_reset_full s Hm) as (Hw & _).
    rewrite Hmod. conj; try assumption; reflexivity.
  - left. destruct (on_auto_changed_effect (PyInt (int_of state)) s)
      as (_ & Hw & Hmod & Hcv & _).
    conj; assumption.
  - left. destruct (interval_edited_effect v s) as (_ & Hw & Hmod & Hcv & _).
    conj; assumption.
  - unfold bind, get. destruct (active (ui_timer s)).
    + destruct (ui_tick_full s Ho) as (Hmod & Hw & Hcv & _).
      destruct (collapsed (model s)) eqn:E.
      * right; left. destruct Hcv as (v & o & Hp & Hval & Hcv).
        exists v, o, 0%nat. rewrite Hmod, E. conj; try assumption; reflexivity.
      * right; right; left. conj; try assumption; reflexivity.
    + left. conj; reflexivity.
  - unfold bind, get. destruct (active (auto_timer s)).
    + destruct Hintr as [H|H];
        [right; right; right; left | right; right; right; right; left]; exact H.
    + left. conj; reflexivity.
Qed.

End Transitions.

(** * Invariants of the running window *)

Section Invariants.

Import Cell Canvas Qt Window Trace.

Ltac conj := repeat match goal with |- _ /\ _ => split end.

Lemma outcome_pair_fun (v v' : Z) (o : string) :
  outcome_pair v o -> outcome_pair v' o -> v = v'.
Proof.
  intros [[-> ->]|[-> ->]] [[-> H]|[-> H]]; try reflexivity; discriminate.
Qed.

Lemma skipn_repeat_same {A : Type} (x : A) (j n : nat) :
  skipn j (repeat x n) = repeat x (n - j).
Proof.
  revert n. induction j as [|j IH]; intros n.
  - now rewrite Nat.sub_0_r.
  - destruct n as [|n]; [reflexivity | apply IH].
Qed.

Lemma skipn_two_runs {A : Type} (x y : A) (j a b : nat) :
  skipn j (repeat x a ++ repeat y b) = repeat x (a - j) ++ repeat y (b - (j - a)).
Proof.
  rewrite skipn_app, !skipn_repeat_same, repeat_length. reflexivity.
Qed.

Lemma repeat_snoc {A : Type} (x : A) (n : nat) : repeat x n ++ [x] = repeat x (S n).
Proof.
  change [x] with (repeat x 1). rewrite <- repeat_app. f_equal. lia.
Qed.

(** Appending the fixed number keeps the two runs. *)
Lemma append_known_runs (d : Deque.deque num) (a b : nat) (v : Z) :
  Deque.ok d ->
  Deque.items d = repeat NaN a ++ repeat (Int v) b ->
  exists a' b' : nat,
    Deque.items (Deque.append (Int v) d) = repeat NaN a' ++ repeat (Int v) b'.
Proof.
  intros Hok H. rewrite deque_append_items by assumption.
  rewrite H, <- app_assoc, repeat_snoc, skipn_two_runs. eauto.
Qed.

(** Appending an unknown to unknowns gives unknowns. *)
Lemma append_unknown_run (d : Deque.deque num) (a : nat) :
  Deque.ok d ->
  Deque.items d = repeat NaN a ->
  exists a' : nat, Deque.items (Deque.append NaN d) = repeat NaN a'.
Proof.
  intros Hok H. rewrite deque_append_items by assumption.
  rewrite H, repeat_snoc, skipn_repeat_same. eauto.
Qed.

Lemma step_shaped_kept (e : event) (s : MainWindow) :
  inv s -> step_shaped s -> step_shaped (snd (dispatch e s)).
Proof.
  intros Hinv (a & b & v & Hval & Hrest).
  pose proof Hinv as (_ & _ & (_ & Hokv & _) & _).
  destruct (dispatch_cases e s Hinv)
    as [(Hm & _ & Hc)
       |[(v' & o' & d & Hp & Hcol & Hcv & Hsame & _ & Hc)
       |[(Hcol & Hm & _ & Hc)
       |[(v' & o' & Hp & Hcol & Hcv & Hm & _ & Hc)
       |[(v' & o' & Hp & Hcol & Hcol' & Hcv & _ & Hc)
        |(Hcol & Hcv & _ & Hc)]]]]];
    unfold step_shaped; rewrite Hc.
  - rewrite Hm. exists a, b, v. split; assumption.
  - rewrite Hcol. cbn [values intrusion_times Canvas.append _redraw].
    destruct (collapsed (model s)) eqn:E.
    + destruct Hrest as ((o & Hpo & Hvo) & Hmk).
      rewrite Hsame, Hvo in Hcv. injection Hcv as <-.
      assert (v' = v) by (eapply outcome_pair_fun; eassumption). subst v'.
      destruct (append_known_runs _ a b v Hokv Hval) as (a' & b' & H').
      exists a', b', v. split; [exact H'|]. split; [|exact Hmk].
      exists o. rewrite Hsame. split; assumption.
    + destruct Hrest as (-> & Hmk). rewrite app_nil_r in Hval.
      destruct (append_known_runs _ a 0 v' Hokv) as (a' & b' & H').
      { now rewrite app_nil_r. }
      exists a', b', v'. split; [exact H'|]. split; [eauto|].
      rewrite Hmk. constructor.
  - rewrite Hm, Hcol. rewrite Hcol in Hrest. destruct Hrest as (-> & Hmk).
    rewrite app_nil_r in Hval.
    destruct (append_unknown_run _ a Hokv Hval) as (a' & H').
    cbn [values intrusion_times Canvas.append _redraw].
    exists a', 0%nat, v. rewrite app_nil_r. split; [exact H'|]. split; [reflexivity | exact Hmk].
  - rewrite Hm, Hcol. rewrite Hcol in Hrest.
    destruct Hrest as ((o & Hpo & Hvo) & Hmk).
    rewrite Hvo in Hcv. injection Hcv as <-.
    assert (v' = v) by (eapply outcome_pair_fun; eassumption). subst v'.
    cbn [values intrusion_times mark_intrusion _redraw].
    exists a, b, v. split; [exact Hval|]. split; [eauto|].
    apply Forall_app. split; [exact Hmk|]. constructor; [reflexivity | constructor].
  - rewrite Hcol'. rewrite Hcol in Hrest. destruct Hrest as (-> & Hmk).
    rewrite app_nil_r in Hval.
    cbn [values intrusion_times Canvas.append mark_intrusion _redraw].
    destruct (append_known_runs _ a 0 v' Hokv) as (a' & b' & H').
    { now rewrite app_nil_r. }
    exists a', b', v'. split; [exact H'|]. split; [eauto|].
    rewrite Hmk. constructor; [reflexivity | constructor].
  - rewrite Hcol. exists 1%nat, 0%nat, 0. split; [reflexivity|]. split; reflexivity.
Qed.

Lemma step_shaped_boot (w : World) : step_shaped (boot w).
Proof.
  exists 1%nat, 0%nat, 0. split; [reflexivity|]. split; reflexivity.
Qed.

(** *** The timeline always holds a sample *)

Lemma append_nonempty (t : Z) (v : num) (c : TimelineCanvas) :
  ok c -> 1 <= max_points c ->
  (1 <= List.length (Deque.items (times (Canvas.append t v c))))%nat.
Proof.
  intros (Ht & _ & Mt & _) Hm. cbn [times Canvas.append _redraw].
  rewrite deque_append_items by assumption.
  rewrite length_skipn, length_app, Mt. cbn [List.length]. lia.
Qed.

Lemma nonempty_kept (e : event) (s : MainWindow) :
  inv s ->
  (1 <= List.length (Deque.items (times (canvas s))))%nat ->
  (1 <= List.length (Deque.items (times (canvas (snd (dispatch e s))))))%nat.
Proof.
  intros Hinv H.
  pose proof Hinv as (_ & Hmp & Hok & _).
  assert (H400 : 1 <= max_points (canvas s)) by lia.
  destruct (dispatch_cases e s Hinv)
    as [(_ & _ & Hc)
       |[(v' & o' & d & _ & _ & _ & _ & _ & Hc)
       |[(_ & _ & _ & Hc)
       |[(v' & o' & _ & _ & _ & _ & _ & Hc)
       |[(v' & o' & _ & _ & _ & _ & _ & Hc)
        |(_ & _ & _ & Hc)]]]]]; rewrite Hc.
  - exact H.
  - now apply append_nonempty.
  - now apply append_nonempty.
  - exact H.
  - apply append_nonempty; [now apply mark_intrusion_ok | exact H400].
  - apply append_nonempty; [apply empty_ok; lia | cbn; lia].
Qed.

(** *** Timestamps under a clock that never goes back *)

Lemma sorted_snoc (l : list Z) (x : Z) :
  StronglySorted Z.le l -> Forall (fun t => t <= x) l ->
  StronglySorted Z.le (l ++ [x]).
Proof.
  intros Hs Hb. induction Hs as [|y l Hs IH Hy]; cbn.
  - constructor; constructor.
  - inversion Hb as [|? ? Hyx Hb']; subst. constructor; [now apply IH|].
    apply Forall_app. split; [exact Hy | constructor; [exact Hyx | constructor]].
Qed.

Lemma sorted_le_skipn (k : nat) (l : list Z) :
  StronglySorted Z.le l -> StronglySorted Z.le (skipn k l).
Proof.
  revert l. induction k as [|k IH]; intros l H; [exact H|].
  destruct l as [|x l]; [exact H|]. cbn. apply IH. now inversion H.
Qed.

Lemma bounded_skipn (P : Z -> Prop) (k : nat) (l : list Z) :
  Forall P l -> Forall P (skipn k l).
Proof.
  revert l. induction k as [|k IH]; intros l H; [exact H|].
  destruct l as [|x l]; [exact H|]. cbn. apply IH. now inversion H.
Qed.

Lemma bounded_weaken (b b' : Z) (l : list Z) :
  b <= b' -> Forall (fun t => t <= b) l -> Forall (fun t => t <= b') l.
Proof.
  intros Hb H. eapply Forall_impl; [|exact H]. cbn. intros t Ht. lia.
Qed.

Lemma append_in_order (t b b' : Z) (v : num) (c : TimelineCanvas) :
  ok c -> in_order c -> stamped_before b c -> b <= t -> t <= b' ->
  in_order (Canvas.append t v c) /\ stamped_before b' (Canvas.append t v c).
Proof.
  intros (Ht & _) [Hs Hm] [Bs Bm] Hbt Htb.
  unfold in_order, stamped_before.
  cbn [times intrusion_times Canvas.append _redraw].
  rewrite deque_append_items by assumption.
  assert (Bt : Forall (fun x => x <= t) (Deque.items (times c)))
    by (now apply (bounded_weaken b)).
  repeat split.
  - apply sorted_le_skipn, sorted_snoc; assumption.
  - exact Hm.
  - apply bounded_skipn, Forall_app. split.
    + apply (bounded_weaken b); [lia | exact Bs].
    + constructor; [exact Htb | constructor].
  - apply (bounded_weaken b); [lia | exact Bm].
Qed.

Lemma mark_in_order (t b b' : Z) (v : num) (c : TimelineCanvas) :
  in_order c -> stamped_before b c -> b <= t -> t <= b' ->
  in_order (mark_intrusion t v c) /\ stamped_before b' (mark_intrusion t v c).
Proof.
  intros [Hs Hm] [Bs Bm] Hbt Htb.
  unfold in_order, stamped_before.
  cbn [times intrusion_times mark_intrusion _redraw].
  rewrite map_app. cbn [map fst].
  repeat split.
  - exact Hs.
  - apply sorted_snoc; [exact Hm | now apply (bounded_weaken b)].
  - apply (bounded_weaken b); [lia | exact Bs].
  - apply Forall_app. split.
    + apply (bounded_weaken b); [lia | exact Bm].
    + constructor; [exact Htb | constructor].
Qed.

Lemma order_kept (w : World) (e : event) (s : MainWindow) :
  (forall i j : nat, (i <= j)%nat -> clock w i <= clock w j) ->
  inv s ->
  clock (world s) = clock w
  /\ in_order (canvas s)
  /\ stamped_before (clock w (reads (world s))) (canvas s) ->
  let s' := snd (dispatch e s) in
  clock (world s') = clock w
  /\ in_order (canvas s')
  /\ stamped_before (clock w (reads (world s'))) (canvas s').
Proof.
  intros Hmono Hinv (Hclk & Hord & Hb). cbv zeta.
  pose proof Hinv as (_ & _ & Hok & _).
  destruct (dispatch_cases e s Hinv)
    as [(_ & Hw & Hc)
       |[(v' & o' & d & _ & _ & _ & _ & (_ & Hck & Hr & _) & Hc)
       |[(_ & _ & (_ & Hck & Hr & _) & Hc)
       |[(v' & o' & _ & _ & _ & _ & (_ & Hck & Hr & _) & Hc)
       |[(v' & o' & _ & _ & _ & _ & (_ & Hck & Hr & _) & Hc)
        |(_ & _ & (_ & Hck & Hr & _) & Hc)]]]]];
    rewrite Hc; try rewrite Hw; try rewrite Hck, Hr; rewrite ?Hclk.
  - auto.
  - split; [reflexivity|].
    apply (append_in_order _ (clock w (reads (world s)))); try assumption;
      [lia | apply Hmono; lia].
  - split; [reflexivity|].
    apply (append_in_order _ (clock w (reads (world s)))); try assumption;
      [lia | apply Hmono; lia].
  - split; [reflexivity|].
    apply (mark_in_order _ (clock w (reads (world s)))); try assumption;
      [lia | apply Hmono; lia].
  - split; [reflexivity|].
    destruct (mark_in_order (clock w (reads (world s))) (clock w (reads (world s)))
                (clock w (reads (world s))) (Int v') (canvas s) Hord Hb)
      as [Ho' Hb']; try lia.
    apply (append_in_order _ (clock w (reads (world s)))); try assumption;
      apply Hmono; lia.
  - split; [reflexivity|].
    apply (append_in_order _ (clock w (reads (world s)))).
    + apply empty_ok. lia.
    + split; constructor.
    + split; constructor.
    + lia.
    + apply Hmono. lia.
Qed.

(** *** Timers, log and alerts *)

Lemma dispatch_timers (e : event) (s : MainWindow) :
  inv s ->
  let s' := snd (dispatch e s) in
  ui_timer s' = ui_timer s
  /\ interval_spin s' =
       match e with
       | IntervalEdited v => edited v (interval_spin s)
       | _ => interval_spin s
       end
  /\ auto_timer s' =
       match e with
       | AutoStateChanged _ => stop (auto_timer s)
       | _ => auto_timer s
       end.
Proof.
  intros (Ho & Hm & _). cbv zeta.
  assert (Hintr : ui_timer (snd (on_intrusion s)) = ui_timer s
                  /\ interval_spin (snd (on_intrusion s)) = interval_spin s
                  /\ auto_timer (snd (on_intrusion s)) = auto_timer s).
  { destruct (on_intrusion_effect s Ho)
      as (_ & v & _ & _ & _ & _ & _ & _ & _ & Hs & Hu & Ha). auto. }
  destruct e; [cbn [dispatch] .. | | cbn [dispatch] | cbn [dispatch]].
  - destruct (on_measure_effect s Ho) as (_ & v & _ & _ & _ & Hs & Hu & Ha). auto.
  - exact Hintr.
  - destruct (on_reset_effect s Hm) as (_ & _ & _ & _ & Hs & Hu & Ha & _). auto.
  - destruct (on_auto_changed_effect (PyInt (int_of state)) s)
      as (_ & _ & _ & _ & Hs & Hu & _ & Ha).
    auto.
  - destruct (interval_edited_effect v s) as (_ & _ & _ & _ & Hu & Ha & _ & Hs). auto.
  - unfold bind, get. destruct (active (ui_timer s)).
    + destruct (ui_tick_effect s Ho) as (_ & _ & _ & Hs & Hu & Ha). auto.
    + auto.
  - unfold bind, get. destruct (active (auto_timer s)); [exact Hintr | auto].
Qed.

Lemma dispatch_log (e : event) (s : MainWindow) :
  inv s ->
  let s' := snd (dispatch e s) in
  (exists new : list string,
      log_box s' = log_box s ++ new /\ List.length new = lines e s)
  /\ alerts s' = alerts s ++ repeat alert (alarms e s).
Proof.
  intros (Ho & Hm & _). cbv zeta.
  assert (Hintr :
    (exists new : list string,
        log_box (snd (on_intrusion s)) = log_box s ++ new /\ List.length new = 1%nat)
    /\ alerts (snd (on_intrusion s)) = alerts s ++ repeat alert 1).
  { destruct (on_intrusion_full s Ho) as (v & o & _ & _ & _ & _ & _ & _ & Hl).
    destruct (on_intrusion_effect s Ho)
      as (_ & v' & _ & _ & _ & _ & _ & _ & Ha & _).
    split; [eauto | exact Ha]. }
  destruct e; [cbn [dispatch lines alarms] .. | | cbn [dispatch lines alarms]
               | cbn [dispatch lines alarms]].
  - destruct (on_measure_full s Ho) as (v & o & _ & _ & _ & _ & _ & _ & Hl & Ha).
    split; [eauto | now rewrite Ha, app_nil_r].
  - exact Hintr.
  - destruct (on_reset_full s Hm) as (_ & _ & Hl).
    destruct (on_reset_effect s Hm) as (_ & _ & _ & _ & _ & _ & _ & Ha).
    split; [eauto | now rewrite Ha, app_nil_r].
  - destruct (on_auto_changed_full (PyInt (int_of state)) s) as (_ & Hl).
    destruct (on_auto_changed_effect (PyInt (int_of state)) s)
      as (_ & _ & _ & _ & _ & _ & Ha & _).
    split; [eauto | now rewrite Ha, app_nil_r].
  - destruct (interval_edited_full v s) as (_ & Hl).
    destruct (interval_edited_effect v s) as (_ & _ & _ & _ & _ & _ & Ha & _).
    cbn [lines alarms repeat]. rewrite Hl, Ha, !app_nil_r.
    split; [exists []; now rewrite app_nil_r | reflexivity].
  - unfold bind, get. destruct (active (ui_timer s)).
    + destruct (ui_tick_full s Ho) as (_ & _ & _ & _ & Hl & Ha).
      cbn [repeat]. rewrite Hl, Ha, !app_nil_r.
      split; [exists []; now rewrite app_nil_r | reflexivity].
    + cbn [ret snd repeat]. rewrite !app_nil_r.
      split; [exists []; now rewrite app_nil_r | reflexivity].
  - unfold bind, get. destruct (active (auto_timer s)).
    + exact Hintr.
    + cbn [ret snd repeat]. rewrite !app_nil_r.
      split; [exists []; now rewrite app_nil_r | reflexivity].
Qed.

End Invariants.

(** * More properties of the window *)

Section WindowExtras.

Import Cell Canvas Qt Window Trace.

Ltac conj := repeat match goal with |- _ /\ _ => split end.

(** X1: whenever the measure slot runs, it completes; the cell is collapsed
    afterwards, unchanged if it already was and with a newly drawn outcome
    otherwise; the samples afterwards are the old ones, without the oldest
    if there were 400, followed by one new sample with the outcome at the
    clock reading of the slot; no marker is added and no alert raised; the
    label and one log line show the outcome. *)
Theorem measure_appends_one_sample :
  forall (w : World) (es : list event),
    let s := after es w in
    let r := on_measure s in
    let s' := snd r in
    let t := clock (world s) (reads (world s)) in
    fst r = inr tt
    /\ exists (v : Z) (o : string),
        outcome_pair v o
        /\ collapsed (model s') = true
        /\ collapsed_value (model s') = Some o
        /\ (if collapsed (model s)
            then model s' = model s /\ drawn (world s') = drawn (world s)
            else o = nth (Nat.modulo (entropy (world s) (drawn (world s))) 2)
                         MEASURE_OUTCOMES ""
                 /\ drawn (world s') = S (drawn (world s)))
        /\ times (canvas s') = Deque.append t (times (canvas s))
        /\ values (canvas s') = Deque.append (Int v) (values (canvas s))
        /\ samples (canvas s') =
             (if (List.length (samples (canvas s)) <? 400)%nat
              then samples (canvas s) else tl (samples (canvas s)))
             ++ [(t, Int v)]
        /\ intrusion_times (canvas s') = intrusion_times (canvas s)
        /\ alerts s' = alerts s
        /\ state_label s' = ("Quantum Data: collapsed → " ++ o)%string
        /\ log_box s' =
             log_box s ++ [("Measurement performed: collapsed to " ++ o ++ ".")%string].
Proof.
  intros w es s r s' t.
  destruct (after_inv es w) as (Ho & Hmp & Hok & _). fold s in Ho, Hmp, Hok.
  destruct (on_measure_effect s Ho) as (R & _).
  destruct (on_measure_full s Ho)
    as (v & o & Hp & Hmod & Hc & (_ & _ & _ & Hd) & Hcv & Hl & Hlog & Ha).
  fold r in R. fold r s' in Hmod, Hd, Hcv, Hl, Hlog, Ha. fold t in Hcv.
  assert (Hs : samples (Canvas.append t (Int v) (canvas s)) =
               (if (List.length (samples (canvas s)) <? 400)%nat
                then samples (canvas s) else tl (samples (canvas s)))
               ++ [(t, Int v)]).
  { rewrite append_samples; [|assumption | lia]. rewrite Hmp. reflexivity. }
  split; [exact R|]. exists v, o.
  split; [exact Hp|]. rewrite Hmod, Hcv. cbn [collapsed collapsed_value].
  split; [reflexivity|]. split; [reflexivity|].
  split; [|conj; try assumption; reflexivity].
  revert Hc Hd. destruct (model s) as [q c ov tm]. cbn.
  destruct c; [intros -> Hd | intros Hc Hd]; split; auto.
Qed.

(** X2: whenever the sampling tick runs, it completes without touching the
    cell and without drawing; it reads the clock once; the samples
    afterwards are the old ones, without the oldest if there were 400,
    followed by one new sample, the stored value of a collapsed cell and the
    unknown value otherwise; markers, log, alerts and label stay as they
    are. *)
Theorem tick_samples_without_measuring :
  forall (w : World) (es : list event),
    let s := after es w in
    let r := _ui_tick s in
    let s' := snd r in
    let t := clock (world s) (reads (world s)) in
    fst r = inr tt
    /\ model s' = model s
    /\ drawn (world s') = drawn (world s)
    /\ reads (world s') = S (reads (world s))
    /\ (exists x : num,
          canvas s' = Canvas.append t x (canvas s)
          /\ samples (canvas s') =
               (if (List.length (samples (canvas s)) <? 400)%nat
                then samples (canvas s) else tl (samples (canvas s)))
               ++ [(t, x)]
          /\ if collapsed (model s)
             then exists v : Z,
                    py_int (collapsed_value (model s)) = inr v /\ x = Int v
             else x = NaN)
    /\ intrusion_times (canvas s') = intrusion_times (canvas s)
    /\ log_box s' = log_box s
    /\ alerts s' = alerts s
    /\ state_label s' = state_label s.
Proof.
  intros w es s r s' t.
  destruct (after_inv es w) as (Ho & Hmp & Hok & _). fold s in Ho, Hmp, Hok.
  assert (Hs : forall x : num,
             samples (Canvas.append t x (canvas s)) =
             (if (List.length (samples (canvas s)) <? 400)%nat
              then samples (canvas s) else tl (samples (canvas s)))
             ++ [(t, x)]).
  { intros x. rewrite append_samples; [|assumption | lia]. rewrite Hmp. reflexivity. }
  destruct (ui_tick_effect s Ho) as (R & _).
  destruct (ui_tick_full s Ho) as (Hmod & (_ & _ & Hr & Hd) & Hcv & Hl & Hlog & Ha).
  fold r in R. fold r s' in Hmod, Hr, Hd, Hcv, Hl, Hlog, Ha. fold t in Hcv.
  assert (Hx : exists x : num,
            canvas s' = Canvas.append t x (canvas s)
            /\ samples (canvas s') =
                 (if (List.length (samples (canvas s)) <? 400)%nat
                  then samples (canvas s) else tl (samples (canvas s)))
                 ++ [(t, x)]
            /\ if collapsed (model s)
               then exists v : Z,
                      py_int (collapsed_value (model s)) = inr v /\ x = Int v
               else x = NaN).
  { destruct (collapsed (model s)).
    - destruct Hcv as (v & o & Hp & Hval & Hcv). exists (Int v).
      split; [exact Hcv|]. split; [rewrite Hcv; apply Hs|]. exists v. rewrite Hval.
      destruct Hp as [[-> ->]|[-> ->]]; split; reflexivity.
    - exists NaN. split; [exact Hcv|]. split; [rewrite Hcv; apply Hs | reflexivity]. }
  conj; try assumption.
  destruct Hx as (x & Hc & _). now rewrite Hc.
Qed.

(** X3: the constructor and every sequence of events run without raising:
    neither [int(None)] nor a negative deque length is ever reached. *)
Theorem slots_never_raise :
  forall (w : World) (es : list event),
    fst (init (blank w)) = inr tt /\ fst (exec es (boot w)) = inr tt.
Proof.
  intros w es. split; [reflexivity|]. apply exec_inv, boot_inv.
Qed.

(** X4: in every state of the running window the canvas holds between 1
    and 400 samples, with as many timestamps as values. *)
Theorem timeline_never_empty :
  forall (w : World) (es : list event),
    let c := canvas (after es w) in
    max_points c = 400
    /\ (1 <= List.length (samples c) <= 400)%nat
    /\ List.length (Deque.items (times c)) = List.length (Deque.items (values c)).
Proof.
  intros w es c.
  destruct (after_inv es w) as (_ & Hmp & Hok & _). fold c in Hmp, Hok.
  assert (H1 : (1 <= List.length (Deque.items (times c)))%nat).
  { unfold c. apply (after_ind w (fun s =>
      (1 <= List.length (Deque.items (times (canvas s))))%nat)).
    - cbn. lia.
    - intros e s. apply nonempty_kept. }
  pose proof (samples_bound c Hok) as Hb.
  destruct Hok as (_ & _ & _ & _ & L).
  split; [exact Hmp|]. split; [|exact L].
  unfold samples in *. rewrite length_combine, <- L, Nat.min_id in *. lia.
Qed.

(** X5: if the clock never goes back, the timestamps of the samples on the
    canvas are in non-decreasing order, and so are those of the markers, in
    every state of the running window. *)
Theorem timestamps_in_order :
  forall (w : World) (es : list event),
    (forall i j : nat, (i <= j)%nat -> clock w i <= clock w j) ->
    StronglySorted Z.le (Deque.items (times (canvas (after es w))))
    /\ StronglySorted Z.le (map fst (intrusion_times (canvas (after es w)))).
Proof.
  intros w es Hmono.
  assert (H : clock (world (after es w)) = clock w
              /\ in_order (canvas (after es w))
              /\ stamped_before (clock w (reads (world (after es w))))
                                (canvas (after es w))).
  { apply (after_ind w (fun s =>
      clock (world s) = clock w /\ in_order (canvas s)
      /\ stamped_before (clock w (reads (world s))) (canvas s))).
    - split; [reflexivity|]. split.
      + split; cbn; repeat constructor.
      + split; cbn; repeat constructor. apply Hmono. lia.
    - intros e s Hinv HP. now apply order_kept. }
  exact (proj1 (proj2 H)).
Qed.

(** X6: the log and the list of alerts only grow: an event appends one log
    line when it is a click, a change of the check box or a firing of the
    running auto-intrusion timer, and none otherwise; it appends one alert
    exactly when it runs the intrusion slot; the first log line is always
    the one written by the constructor. *)
Theorem log_is_append_only :
  forall (w : World) (es : list event) (e : event),
    let s := after es w in
    let s' := after (es ++ [e]) w in
    (exists new : list string,
        log_box s' = log_box s ++ new /\ List.length new = lines e s)
    /\ alerts s' = alerts s ++ repeat alert (alarms e s)
    /\ exists rest : list string,
         log_box s =
         ("System initialized. Quantum state set to "
            ++ quantum_state (model (boot w)))%string :: rest.
Proof.
  intros w es e s s'. unfold s'. rewrite after_snoc. fold s.
  destruct (dispatch_log e s (after_inv es w)) as [Hl Ha].
  split; [exact Hl|]. split; [exact Ha|].
  unfold s. apply (after_ind w (fun s => exists rest : list string,
    log_box s =
    ("System initialized. Quantum state set to "
       ++ quantum_state (model (boot w)))%string :: rest)).
  - exists []. reflexivity.
  - intros e0 s0 Hinv [rest Hrest].
    destruct (dispatch_log e0 s0 Hinv) as [(new & Hn & _) _].
    exists (rest ++ new). now rewrite Hn, Hrest.
Qed.

(** X7: in every state of the running window the sampling timer is running
    with a period of 500 ms and has been started once, and the spin box
    ranges over 1 to 60 with its value inside. *)
Theorem sampling_timer_constant :
  forall (w : World) (es : list event),
    let s := after es w in
    ui_timer s = mkTimer 500 true 1
    /\ minimum (interval_spin s) = 1
    /\ maximum (interval_spin s) = 60
    /\ 1 <= Qt.value (interval_spin s) <= 60.
Proof.
  intros w es s.
  destruct (after_inv es w) as (_ & _ & _ & _ & Hlo & Hhi & Hv).
  split; [|auto].
  unfold s. apply (after_ind w (fun s => ui_timer s = mkTimer 500 true 1)).
  - reflexivity.
  - intros e s0 Hinv H. destruct (dispatch_timers e s0 Hinv) as (Hu & _).
    now rewrite Hu.
Qed.

(** X8: in the program as written no change of the check box starts the
    auto-intrusion timer.  The slot is handed the integer of the new state,
    which never equals the member it is compared with, so it always takes
    the disabling branch: in every state of the running window the timer is
    stopped, with period 0, and has never been started, and every change of
    the check box, ticking included, writes the line that says that
    auto-intrusion is disabled. *)
Theorem check_box_never_starts_timer :
  forall (w : World) (es : list event) (c : CheckState),
    let s := after es w in
    let s' := after (es ++ [AutoStateChanged c]) w in
    py_eq (PyInt (int_of c)) (PyMember Checked) = false
    /\ auto_timer s = mkTimer 0 false 0
    /\ auto_timer s' = mkTimer 0 false 0
    /\ log_box s' = log_box s ++ ["Auto intrusion disabled."].
Proof.
  intros w es c s s'.
  assert (Hoff : forall es0 : list event, auto_timer (after es0 w) = mkTimer 0 false 0).
  { intros es0. apply (after_ind w (fun s0 => auto_timer s0 = mkTimer 0 false 0)).
    - reflexivity.
    - intros e s0 Hinv H. destruct (dispatch_timers e s0 Hinv) as (_ & _ & Ha).
      rewrite Ha, H. now destruct e. }
  split; [reflexivity|]. split; [apply Hoff|]. split; [apply Hoff|].
  unfold s'. rewrite after_snoc. fold s. cbn [dispatch].
  destruct (on_auto_changed_full (PyInt (int_of c)) s) as (_ & Hl).
  exact Hl.
Qed.

(** X12: in every state of the running window the values on the timeline
    are unknowns followed by copies of one number; a cell that is not
    collapsed has only unknowns and no marker; for a collapsed cell the
    number is the cell's value and every marker carries it. *)
Theorem timeline_is_a_step :
  forall (w : World) (es : list event),
    let s := after es w in
    exists (a b : nat) (v : Z),
      Deque.items (values (canvas s)) = repeat NaN a ++ repeat (Int v) b
      /\ if collapsed (model s)
         then py_int (collapsed_value (model s)) = inr v
              /\ Forall (fun m => snd m = Int v) (intrusion_times (canvas s))
         else b = 0%nat /\ intrusion_times (canvas s) = [].
Proof.
  intros w es s.
  assert (H : step_shaped s).
  { unfold s. apply after_ind; [apply step_shaped_boot|].
    intros e s0. apply step_shaped_kept. }
  destruct H as (a & b & v & Hval & Hrest). exists a, b, v.
  split; [exact Hval|].
  destruct (collapsed (model s)); [|exact Hrest].
  destruct Hrest as ((o & Hp & Hv) & Hm). split; [|exact Hm].
  rewrite Hv. destruct Hp as [[-> ->]|[-> ->]]; reflexivity.
Qed.

Lemma dispatch_keeps_collapsed (e : event) (s : MainWindow) :
  inv s -> collapsed (model s) = true -> is_reset e = false ->
  model (snd (dispatch e s)) = model s.
Proof.
  intros Hinv Hcol He. pose proof Hinv as (Ho & _).
  assert (Hintr : model (snd (on_intrusion s)) = model s).
  { destruct (on_intrusion_effect s Ho)
      as (_ & v & _ & _ & _ & _ & _ & Hm & _).
    now rewrite Hcol in Hm. }
  destruct e; try discriminate;
    [cbn [dispatch] .. | | cbn [dispatch] | cbn [dispatch]].
  - destruct (on_measure_full s Ho) as (v & o & _ & Hmod & Hc & _).
    rewrite Hmod. revert Hc Hcol. destruct (model s) as [q c ov tm]. cbn.
    intros Hc ->. now rewrite Hc.
  - exact Hintr.
  - now destruct (on_auto_changed_effect (PyInt (int_of state)) s) as (_ & _ & Hm & _).
  - now destruct (interval_edited_effect v s) as (_ & _ & Hm & _).
  - unfold bind, get. destruct (active (ui_timer s)); [|reflexivity].
    now destruct (ui_tick_full s Ho) as (Hm & _).
  - unfold bind, get. destruct (active (auto_timer s)); [exact Hintr | reflexivity].
Qed.

(** X13: once the cell is collapsed, no sequence of events without a reset
    changes the cell: its value, its label and its flag stay as they are. *)
Theorem collapsed_cell_is_frozen :
  forall (w : World) (es es' : list event),
    collapsed (model (after es w)) = true ->
    forallb (fun e => negb (is_reset e)) es' = true ->
    model (after (es ++ es') w) = model (after es w).
Proof.
  intros w es es' Hcol. induction es' as [|e es' IH] using rev_ind; intros Hno.
  - now rewrite app_nil_r.
  - rewrite forallb_app in Hno. apply andb_prop in Hno. destruct Hno as [Hno He].
    cbn in He. rewrite andb_true_r in He. apply negb_true_iff in He.
    specialize (IH Hno).
    rewrite app_assoc, after_snoc, <- IH.
    apply dispatch_keeps_collapsed; [apply after_inv | now rewrite IH | exact He].
Qed.

Lemma label_kept (e : event) (s : MainWindow) :
  inv s ->
  (if collapsed (model s)
   then exists o : string,
          collapsed_value (model s) = Some o
          /\ (state_label s = ("Quantum Data: collapsed → " ++ o)%string
              \/ state_label s = ("Quantum Data: collapsed by intrusion → " ++ o)%string)
   else state_label s =
        ("Quantum Data: " ++ quantum_state (model s) ++ " (pre-measurement)")%string) ->
  let s' := snd (dispatch e s) in
  if collapsed (model s')
  then exists o : string,
         collapsed_value (model s') = Some o
         /\ (state_label s' = ("Quantum Data: collapsed → " ++ o)%string
             \/ state_label s' = ("Quantum Data: collapsed by intrusion → " ++ o)%string)
  else state_label s' =
       ("Quantum Data: " ++ quantum_state (model s') ++ " (pre-measurement)")%string.
Proof.
  intros Hinv HP. cbv zeta. pose proof Hinv as (Ho & Hmp & _).
  assert (Hintr :
    let s' := snd (on_intrusion s) in
    if collapsed (model s')
    then exists o : string,
           collapsed_value (model s') = Some o
           /\ (state_label s' = ("Quantum Data: collapsed → " ++ o)%string
               \/ state_label s' = ("Quantum Data: collapsed by intrusion → " ++ o)%string)
    else state_label s' =
         ("Quantum Data: " ++ quantum_state (model s') ++ " (pre-measurement)")%string).
  { cbv zeta.
    destruct (on_intrusion_full s Ho) as (v & o & _ & Hmod & Hc & _ & _ & Hl & _).
    rewrite Hmod. cbn [collapsed collapsed_value]. exists o. split; [reflexivity|].
    rewrite Hl. destruct (collapsed (model s)).
    - destruct HP as (o0 & Hv0 & Hl0). rewrite Hv0 in Hc. injection Hc as ->.
      exact Hl0.
    - now right. }
  destruct e; [cbn [dispatch] .. | | cbn [dispatch] | cbn [dispatch]].
  - destruct (on_measure_full s Ho) as (v & o & _ & Hmod & _ & _ & _ & Hl & _).
    rewrite Hmod. cbn [collapsed collapsed_value]. exists o.
    split; [reflexivity | now left].
  - exact Hintr.
  - destruct (on_reset_effect s Hmp) as (_ & Hmod & _).
    destruct (on_reset_full s Hmp) as (_ & Hl & _).
    assert (Hcol : collapsed (model (snd (on_reset s))) = false)
      by (rewrite Hmod; reflexivity).
    rewrite Hcol. exact Hl.
  - destruct (on_auto_changed_effect (PyInt (int_of state)) s) as (_ & _ & Hmod & _).
    destruct (on_auto_changed_full (PyInt (int_of state)) s) as (Hl & _).
    rewrite Hmod, Hl. exact HP.
  - destruct (interval_edited_effect v s) as (_ & _ & Hmod & _).
    destruct (interval_edited_full v s) as (Hl & _).
    rewrite Hmod, Hl. exact HP.
  - unfold bind, get. destruct (active (ui_timer s)); [|exact HP].
    destruct (ui_tick_full s Ho) as (Hmod & _ & _ & Hl & _).
    rewrite Hmod, Hl. exact HP.
  - unfold bind, get. destruct (active (auto_timer s)); [exact Hintr | exact HP].
Qed.

(** X16: in every state of the running window the label agrees with the
    cell: it names the pre-measurement state while the cell is not
    collapsed, and afterwards it shows the cell's value, in the wording of
    the measure slot or of the intrusion slot. *)
Theorem label_agrees_with_cell :
  forall (w : World) (es : list event),
    let s := after es w in
    if collapsed (model s)
    then exists o : string,
           collapsed_value (model s) = Some o
           /\ (state_label s = ("Quantum Data: collapsed → " ++ o)%string
               \/ state_label s = ("Quantum Data: collapsed by intrusion → " ++ o)%string)
    else state_label s =
         ("Quantum Data: " ++ quantum_state (model s) ++ " (pre-measurement)")%string.
Proof.
  intros w es. cbv zeta.
  apply (after_ind w (fun s =>
    if collapsed (model s)
    then exists o : string,
           collapsed_value (model s) = Some o
           /\ (state_label s = ("Quantum Data: collapsed → " ++ o)%string
               \/ state_label s = ("Quantum Data: collapsed by intrusion → " ++ o)%string)
    else state_label s =
         ("Quantum Data: " ++ quantum_state (model s) ++ " (pre-measurement)")%string)).
  - destruct w as [en dr ck rd]. lazy. reflexivity.
  - intros e s. apply label_kept.
Qed.

End WindowExtras.

(** * More properties of the canvas and of what it draws *)

Section CanvasExtras.

Import Canvas Render.

Lemma combine_app_same {X Y : Type} (l1 l1' : list X) (l2 l2' : list Y) :
  List.length l1 = List.length l2 ->
  combine (l1 ++ l1') (l2 ++ l2') = combine l1 l2 ++ combine l1' l2'.
Proof.
  revert l2. induction l1 as [|x l1 IH]; intros [|y l2] H; try discriminate.
  - reflexivity.
  - cbn. f_equal. apply IH. now injection H.
Qed.

(** X9: from any canvas whose deques respect their bound, appending the
    samples [xs] leaves the last [max_points] of the old samples followed
    by [xs], in order. *)
Theorem append_all_slides (c : TimelineCanvas) (xs : list (Z * num)) :
  ok c ->
  samples (append_all xs c) =
  skipn (List.length (samples c ++ xs) - Z.to_nat (max_points c)) (samples c ++ xs).
Proof.
  intros (Ht & Hv & Mt & Mv & L).
  destruct (append_all_fields xs c) as (_ & Et & Ev & _).
  unfold samples. rewrite Et, Ev, !appends_items by assumption.
  rewrite Mt, Mv, !length_app, !length_map, length_combine, <- L, Nat.min_id.
  rewrite combine_skipn, combine_app_same by assumption.
  now rewrite combine_fst_snd.
Qed.

(** X10: for a [max_points] that fits a C [ssize_t], [clear] raises
    [ValueError] exactly when [max_points] is negative; otherwise it gives a
    canvas of the same capacity without samples or markers, which a second
    [clear] leaves as it is; what was appended or marked before plays no
    part. *)
Theorem clear_forgets_history :
  forall (c : TimelineCanvas) (os : list op),
    - 2 ^ 63 <= max_points c < 2 ^ 63 ->
    clear (apply_all os c) = clear c
    /\ match clear c with
       | inl e => e = ValueError /\ max_points c < 0
       | inr c' =>
           0 <= max_points c
           /\ max_points c' = max_points c
           /\ samples c' = []
           /\ intrusion_times c' = []
           /\ clear c' = inr c'
       end.
Proof.
  intros c os _. split.
  - rewrite !clear_spec. destruct (apply_all_fields os c) as [_ H]. now rewrite H.
  - rewrite clear_spec. destruct (max_points c <? 0) eqn:E.
    + apply Z.ltb_lt in E. auto.
    + pose proof E as E'. apply Z.ltb_ge in E'. repeat split; try assumption.
      rewrite clear_spec. cbn [max_points empty]. now rewrite E.
Qed.

Lemma times_of_zero_capacity (os : list op) :
  Deque.items (times (apply_all os (empty 0))) = []
  /\ Deque.items (values (apply_all os (empty 0))) = [].
Proof.
  pose proof (apply_all_ok os (empty 0) (empty_ok 0 ltac:(lia)))
    as ((_ & Ht) & (_ & Hv) & Mt & Mv & _).
  destruct (apply_all_fields os (empty 0)) as [_ Hm].
  rewrite Mt, Hm in Ht. rewrite Mv, Hm in Hv. cbn [max_points empty] in Ht, Hv.
  split; apply length_zero_iff_nil; lia.
Qed.

(** X11: a canvas with [max_points = 0] keeps every marker but never a
    sample, and [_redraw] then draws nothing, the markers included. *)
Theorem zero_capacity_shows_nothing :
  forall os : list op,
    let c := apply_all os (empty 0) in
    samples c = []
    /\ intrusion_times c = marks os
    /\ redraw_artists c = Some [].
Proof.
  intros os c. destruct (times_of_zero_capacity os) as [Ht Hv].
  fold c in Ht, Hv. split; [|split].
  - unfold samples. now rewrite Ht.
  - unfold c. now destruct (apply_all_fields os (empty 0)) as [H _].
  - unfold redraw_artists. now rewrite Ht.
Qed.

(** *** Boolean masks over the two deques *)

Lemma select_times {X : Type} (f : num -> bool) (ts : list X) (vs : list num) :
  List.length ts = List.length vs ->
  select (map f vs) ts =
  Some (map fst (filter (fun s => f (snd s)) (combine ts vs))).
Proof.
  revert vs. induction ts as [|t ts IH]; intros [|v vs] H; try discriminate.
  - reflexivity.
  - cbn [map select combine filter snd]. rewrite IH by now injection H.
    now destruct (f v).
Qed.

Lemma select_values {X : Type} (f : num -> bool) (ts : list X) (vs : list num) :
  List.length ts = List.length vs ->
  select (map f vs) vs =
  Some (map snd (filter (fun s => f (snd s)) (combine ts vs))).
Proof.
  revert vs. induction ts as [|t ts IH]; intros [|v vs] H; try discriminate.
  - reflexivity.
  - cbn [map select combine filter snd]. rewrite IH by now injection H.
    now destruct (f v).
Qed.

Lemma any_filter {X : Type} (f : num -> bool) (ts : list X) (vs : list num) :
  List.length ts = List.length vs ->
  any (map f vs) =
  match filter (fun s => f (snd s)) (combine ts vs) with
  | [] => false
  | _ :: _ => true
  end.
Proof.
  revert vs. induction ts as [|t ts IH]; intros [|v vs] H; try discriminate.
  - reflexivity.
  - unfold any in *. cbn [map existsb combine filter snd].
    destruct (f v); [reflexivity|]. cbn [orb]. apply IH. now injection H.
Qed.

Lemma sum_filter {X : Type} (f : num -> bool) (ts : list X) (vs : list num) :
  List.length ts = List.length vs ->
  sum (map f vs) = List.length (filter (fun s => f (snd s)) (combine ts vs)).
Proof.
  revert vs. induction ts as [|t ts IH]; intros [|v vs] H; try discriminate.
  - reflexivity.
  - unfold sum in *. cbn [map filter combine snd].
    destruct (f v); cbn [List.length]; [f_equal|]; apply IH; now injection H.
Qed.

(** [_redraw] in terms of the samples. *)
Lemma redraw_by_samples (c : TimelineCanvas) :
  List.length (Deque.items (times c)) = List.length (Deque.items (values c)) ->
  let known := filter (fun s => negb (isnan (snd s))) (samples c) in
  let unknown := filter (fun s => isnan (snd s)) (samples c) in
  redraw_artists c =
  Some (match samples c with
        | [] => []
        | _ :: _ =>
            match known with
            | [] => []
            | _ :: _ => [Step (map fst known) (map snd known);
                         Scatter (map fst known) (map snd known)]
            end
            ++ match unknown with
               | [] => []
               | _ :: _ => [Dashed (map fst unknown)
                                   (repeat Half (List.length unknown))]
               end
            ++ markers (intrusion_times c) ++ [Legend]
        end).
Proof.
  intros L. cbv zeta. unfold redraw_artists, samples.
  destruct (Deque.items (times c)) as [|t ts] eqn:Et.
  - reflexivity.
  - destruct (Deque.items (values c)) as [|v vs] eqn:Ev; [discriminate|].
    cbn [List.length Nat.ltb Nat.leb].
    rewrite (any_filter (fun v => negb (isnan v)) (t :: ts)) by assumption.
    rewrite (any_filter isnan (t :: ts)) by assumption.
    rewrite (select_times (fun v => negb (isnan v))) by assumption.
    rewrite (select_values (fun v => negb (isnan v)) (t :: ts)) by assumption.
    rewrite (select_times isnan) by assumption.
    rewrite (sum_filter isnan (t :: ts)) by assumption.
    set (k := filter (fun s => negb (isnan (snd s))) (combine (t :: ts) (v :: vs))).
    set (u := filter (fun s => isnan (snd s)) (combine (t :: ts) (v :: vs))).
    change (combine (t :: ts) (v :: vs)) with ((t, v) :: combine ts vs).
    cbv iota.
    destruct k; destruct u; reflexivity.
Qed.

(** X15: on a canvas whose two deques have the same length [_redraw] never
    raises; with no sample it draws nothing; otherwise it draws the known
    samples, in order, as one step line with its points, the unknown ones
    as one dashed line at one half, then every marker, then the legend. *)
Theorem redraw_draws_every_sample (c : TimelineCanvas) :
  List.length (Deque.items (times c)) = List.length (Deque.items (values c)) ->
  let known := filter (fun s => negb (isnan (snd s))) (samples c) in
  let unknown := filter (fun s => isnan (snd s)) (samples c) in
  redraw_artists c =
  Some (match samples c with
        | [] => []
        | _ :: _ =>
            match known with
            | [] => []
            | _ :: _ => [Step (map fst known) (map snd known);
                         Scatter (map fst known) (map snd known)]
            end
            ++ match unknown with
               | [] => []
               | _ :: _ => [Dashed (map fst unknown)
                                   (repeat Half (List.length unknown))]
               end
            ++ markers (intrusion_times c) ++ [Legend]
        end).
Proof.
  intros L. exact (redraw_by_samples c L).
Qed.

(** X14: in every state of the running window [_redraw] completes and
    draws at least one line for the samples, then every marker at the
    height of its value, 0 or 1 and never the height kept for a marker
    without a value, then the legend. *)
Theorem markers_drawn_at_their_value :
  forall (w : World) (es : list Window.event),
    let c := Window.canvas (Window.after es w) in
    exists plot : list artist,
      redraw_artists c = Some (plot ++ markers (intrusion_times c) ++ [Legend])
      /\ plot <> []
      /\ Forall (fun a => match a with
                          | Step _ _ | Scatter _ _ | Dashed _ _ => True
                          | _ => False
                          end) plot
      /\ Forall (fun m => marker_y (snd m) = At 0 \/ marker_y (snd m) = At 1)
                (intrusion_times c).
Proof.
  intros w es c.
  destruct (after_inv es w) as (_ & _ & (_ & _ & _ & _ & L) & Hb & _).
  fold c in L, Hb.
  pose proof (after_ind w (fun s =>
    (1 <= List.length (Deque.items (times (Window.canvas s))))%nat)
    ltac:(cbn; lia) (fun e s => nonempty_kept e s) es) as Hne.
  cbv beta in Hne. fold c in Hne.
  pose proof (redraw_by_samples c L) as Hr. cbv zeta in Hr.
  assert (Hs : exists t v rest, samples c = (t, v) :: rest).
  { unfold samples. revert Hne L.
    destruct (Deque.items (times c)) as [|t ts]; cbn; [lia|].
    destruct (Deque.items (values c)) as [|v vs]; [discriminate|].
    eauto. }
  destruct Hs as (t & v & rest & Hs). rewrite Hs in Hr.
  rewrite app_assoc in Hr. rewrite <- Hs in Hr.
  eexists. split; [exact Hr|]. split; [|split].
  - rewrite Hs. cbn [filter snd].
    destruct v; cbn [isnan negb]; [|discriminate].
    destruct (filter (fun s => negb (isnan (snd s))) rest); discriminate.
  - apply Forall_app. split.
    + destruct (filter (fun s => negb (isnan (snd s))) (samples c));
        repeat constructor.
    + destruct (filter (fun s => isnan (snd s)) (samples c)); repeat constructor.
  - eapply Forall_impl; [|exact Hb]. intros m [H|H]; rewrite H; cbn; auto.
Qed.

End CanvasExtras.

(** * Concrete runs of the further properties *)

Section MoreRuns.

Import Cell Canvas Qt Window Trace Render.

Lemma timestamps_in_order_witness :
  let es := [IntrudeClicked; UiTimeout; ResetClicked; MeasureClicked; IntrudeClicked] in
  (forall i j : nat, (i <= j)%nat -> clock demo_world i <= clock demo_world j)
  /\ StronglySorted Z.le (Deque.items (times (canvas (after es demo_world))))
  /\ StronglySorted Z.le (map fst (intrusion_times (canvas (after es demo_world)))).
Proof.
  cbv zeta.
  assert (H : forall i j : nat, (i <= j)%nat -> clock demo_world i <= clock demo_world j)
    by (intros i j Hij; unfold demo_world; cbn [clock]; lia).
  split; [exact H|]. exact (timestamps_in_order demo_world _ H).
Defined.

Lemma append_all_slides_witness :
  let c := append_all [(5, NaN)] (empty 2) in
  ok c
  /\ samples (append_all [(10, Int 1); (20, Int 1)] c) = [(10, Int 1); (20, Int 1)].
Proof.
  cbv zeta.
  assert (Hok : ok (append_all [(5, NaN)] (empty 2))).
  { unfold ok, Deque.ok. vm_compute. repeat split; discriminate. }
  split; [exact Hok|].
  exact (append_all_slides _ [(10, Int 1); (20, Int 1)] Hok).
Defined.

Lemma collapsed_cell_is_frozen_witness :
  let es := [MeasureClicked] in
  let es' := [UiTimeout; IntrudeClicked; AutoStateChanged Checked; AutoTimeout] in
  collapsed (model (after es demo_world)) = true
  /\ forallb (fun e => negb (is_reset e)) es' = true
  /\ model (after (es ++ es') demo_world) = model (after es demo_world).
Proof.
  cbv zeta.
  assert (H1 : collapsed (model (after [MeasureClicked] demo_world)) = true)
    by reflexivity.
  assert (H2 : forallb (fun e => negb (is_reset e))
                 [UiTimeout; IntrudeClicked; AutoStateChanged Checked; AutoTimeout]
               = true) by reflexivity.
  split; [exact H1|]. split; [exact H2|].
  exact (collapsed_cell_is_frozen demo_world _ _ H1 H2).
Defined.

Lemma clear_forgets_history_witness :
  let c := empty 2 in
  let os := [Append 1 NaN; Mark 2 (Int 1); Append 3 (Int 1); Append 4 (Int 1)] in
  - 2 ^ 63 <= max_points c < 2 ^ 63
  /\ clear (apply_all os c) = inr (empty 2).
Proof.
  cbv zeta.
  assert (H : - 2 ^ 63 <= max_points (empty 2) < 2 ^ 63) by (cbn; lia).
  split; [exact H|].
  exact (proj1 (clear_forgets_history (empty 2)
                  [Append 1 NaN; Mark 2 (Int 1); Append 3 (Int 1); Append 4 (Int 1)] H)).
Defined.

Lemma redraw_draws_every_sample_witness :
  let c := mark_intrusion 3 (Int 1) (append_all [(1, NaN); (2, Int 1)] (empty 5)) in
  List.length (Deque.items (times c)) = List.length (Deque.items (values c))
  /\ redraw_artists c =
     Some [Step [2] [Int 1]; Scatter [2] [Int 1]; Dashed [1] [Half];
           Cross 3 (At 1); Annotate "intrusion" 3 (At 1); Legend].
Proof.
  cbv zeta.
  assert (L : List.length (Deque.items (times
                 (mark_intrusion 3 (Int 1) (append_all [(1, NaN); (2, Int 1)] (empty 5)))))
              = List.length (Deque.items (values
                 (mark_intrusion 3 (Int 1) (append_all [(1, NaN); (2, Int 1)] (empty 5))))))
    by reflexivity.
  split; [exact L|].
  exact (redraw_draws_every_sample _ L).
Defined.

End MoreRuns.
